(** * QLauncher: the dashboard backend of [main.py], embedded in Rocq

    The Flask application of [src/main.py] is translated function by
    function.  Python values are a small inductive type; the environment of
    the process (file system, clock, upstream weather API, shell) and the
    globals of the module form an explicit [World]; every Python function is
    a computation in a state-and-exception monad over that world.  The
    library calls the program makes ([json], [configparser], [int],
    [requests], [subprocess], [os.path], Flask's dispatch) are modelled in
    their own modules, after the behaviour of CPython 3.11 and of the
    libraries as documented.

    What the embedding represents, and what it leaves out
    - a Python [str] is a [string] holding its UTF-8 code units, and a text
      file opened with [encoding="utf-8"] holds such text; the codec itself
      (undecodable bytes on reading, unpaired surrogates on writing) is left
      out, and so are the whitespace and the digits outside ASCII;
    - Python integers are [Z]; time stamps and durations are [Z], in
      microseconds, the resolution of [datetime]; the finite range of
      [datetime.timedelta], the limit on the digits of [int(s)] and the
      recursion limit of the JSON decoder are left out;
    - a Python [float] is carried by its literal (see [PyFloat]): floating
      point arithmetic does not occur in the program;
    - the file system is a flat map from path names to regular files;
      opening a file to write always succeeds (no directories, no
      permissions), and requests are served one at a time. *)

From Stdlib Require Import ZArith String Ascii DecimalString DecimalZ DecimalFacts DecimalPos.
From stdpp Require Import gmap strings list.

Set Warnings "-register-all".

Open Scope string_scope.
Open Scope Z_scope.

(** ** Python values that flow through the program *)

Inductive pyval : Type :=
| PyNone
| PyBool (b : bool)
| PyInt (n : Z)
| PyFloat (lit : string)
    (* the float's literal: [repr(x)] for a float [x] Python produced *)
| PyStr (s : string)
| PyList (l : list pyval)
| PyDict (d : list (string * pyval)).
    (* insertion-ordered, keys unique in a well-formed dict *)

(** Python dictionaries as ordered association lists. *)
Module Dict.

Fixpoint get {A} (d : list (string * A)) (k : string) : option A :=
  match d with
  | [] => None
  | (k', v) :: d' => if String.eqb k' k then Some v else get d' k
  end.

Definition contains {A} (d : list (string * A)) (k : string) : bool :=
  match get d k with Some _ => true | None => false end.

(** [d[k] = v]: an existing key keeps its position, a new key goes last. *)
Fixpoint set {A} (d : list (string * A)) (k : string) (v : A) : list (string * A) :=
  match d with
  | [] => [(k, v)]
  | (k', v') :: d' =>
      if String.eqb k' k then (k', v) :: d' else (k', v') :: set d' k v
  end.

(** [d.get(k, default)] *)
Definition get_default {A} (d : list (string * A)) (k : string) (dflt : A) : A :=
  match get d k with Some v => v | None => dflt end.

Definition keys {A} (d : list (string * A)) : list string := map fst d.

End Dict.

(** ** The [json] module

    [json.dumps(obj, ensure_ascii=False)] and [json.loads] as CPython's
    [json.encoder] and [json.decoder]/[json.scanner] define them, with the
    default separators [", "] and [": "]. *)
Module Json.

Definition code (c : ascii) : N := N_of_ascii c.

(** The double quote character, code 34. *)
Definition dquote : ascii := ascii_of_N 34.
Definition quoted (s : string) : string := String dquote (s +:+ String dquote "").

Definition is_control (c : ascii) : bool := (code c <? 32)%N.

Definition hex_digit (n : N) : ascii :=
  ascii_of_N (if (n <? 10)%N then 48 + n else 87 + n)%N.

(** One character of [encode_basestring]: the table [ESCAPE_DCT]. *)
Definition escape_char (c : ascii) : string :=
  if Ascii.eqb c dquote then String "\" (String dquote "")
  else if Ascii.eqb c "\" then "\\"
  else if Ascii.eqb c "010" then "\n"
  else if Ascii.eqb c "013" then "\r"
  else if Ascii.eqb c "009" then "\t"
  else if Ascii.eqb c "008" then "\b"
  else if Ascii.eqb c "012" then "\f"
  else if is_control c then
    "\u00" +:+ String (hex_digit (code c / 16)) (String (hex_digit (code c mod 16)) "")
  else String c "".

Fixpoint escape (s : string) : string :=
  match s with
  | EmptyString => ""
  | String c t => escape_char c +:+ escape t
  end.

Definition encode_basestring (s : string) : string :=
  quoted (escape s).

Definition int_repr (n : Z) : string := NilEmpty.string_of_int (Z.to_int n).

(** The elements of a list, and the members of a dict, joined by the item
    separator [", "]; a key and its value by the key separator [": "]. *)
Definition join_items (f : pyval -> string) : list pyval -> string :=
  fix items (l : list pyval) : string :=
    match l with
    | [] => ""
    | [x] => f x
    | x :: l' => f x +:+ ", " +:+ items l'
    end.

Definition join_members (f : pyval -> string) : list (string * pyval) -> string :=
  fix members (d : list (string * pyval)) : string :=
    match d with
    | [] => ""
    | [(k, x)] => encode_basestring k +:+ ": " +:+ f x
    | (k, x) :: d' => encode_basestring k +:+ ": " +:+ f x +:+ ", " +:+ members d'
    end.

Fixpoint dumps (v : pyval) : string :=
  match v with
  | PyNone => "null"
  | PyBool true => "true"
  | PyBool false => "false"
  | PyInt n => int_repr n
  | PyFloat lit => lit
  | PyStr s => encode_basestring s
  | PyList l => "[" +:+ join_items dumps l +:+ "]"
  | PyDict d => "{" +:+ join_members dumps d +:+ "}"
  end.

(** *** Decoding *)

Definition is_ws (c : ascii) : bool :=
  Ascii.eqb c " " || Ascii.eqb c "009" || Ascii.eqb c "010" || Ascii.eqb c "013".

Fixpoint skip_ws (s : string) : string :=
  match s with
  | String c t => if is_ws c then skip_ws t else s
  | EmptyString => s
  end.

Definition is_digit (c : ascii) : bool := (48 <=? code c)%N && (code c <=? 57)%N.

Fixpoint span_digits (s : string) : string * string :=
  match s with
  | String c t =>
      if is_digit c then let (d, r) := span_digits t in (String c d, r)
      else ("", s)
  | EmptyString => ("", "")
  end.

Definition hex_value (c : ascii) : option N :=
  let n := code c in
  if (48 <=? n)%N && (n <=? 57)%N then Some (n - 48)%N
  else if (97 <=? n)%N && (n <=? 102)%N then Some (n - 87)%N
  else if (65 <=? n)%N && (n <=? 70)%N then Some (n - 55)%N
  else None.

(** The four hexadecimal digits after [\u]. *)
Definition decode_uXXXX (s : string) : option (N * string) :=
  match s with
  | String a (String b (String c (String d t))) =>
      match hex_value a, hex_value b, hex_value c, hex_value d with
      | Some x, Some y, Some z, Some w => Some (((x * 16 + y) * 16 + z) * 16 + w, t)%N
      | _, _, _, _ => None
      end
  | _ => None
  end.

(** [chr(cp)] in the UTF-8 representation of [str]. *)
Definition chr (cp : N) : string :=
  let b (n : N) := ascii_of_N n in
  (if cp <? 128 then String (b cp) ""
   else if cp <? 2048 then
     String (b (192 + cp / 64)) (String (b (128 + cp mod 64)) "")
   else if cp <? 65536 then
     String (b (224 + cp / 4096))
       (String (b (128 + (cp / 64) mod 64)) (String (b (128 + cp mod 64)) ""))
   else
     String (b (240 + cp / 262144))
       (String (b (128 + (cp / 4096) mod 64))
          (String (b (128 + (cp / 64) mod 64)) (String (b (128 + cp mod 64)) ""))))%N.

Definition unescape (e : ascii) : option ascii :=
  if Ascii.eqb e dquote then Some dquote
  else if Ascii.eqb e "\" then Some "\"%char
  else if Ascii.eqb e "/" then Some "/"%char
  else if Ascii.eqb e "b" then Some "008"%char
  else if Ascii.eqb e "f" then Some "012"%char
  else if Ascii.eqb e "n" then Some "010"%char
  else if Ascii.eqb e "r" then Some "013"%char
  else if Ascii.eqb e "t" then Some "009"%char
  else None.

Definition prepend (p : string) (r : option (string * string)) : option (string * string) :=
  match r with
  | Some (s, rest) => Some (p +:+ s, rest)
  | None => None
  end.

(** [scanstring] (strict mode) on the text after the opening quote: the
    decoded string and the text after the closing quote. *)
Fixpoint scanstring (s : string) : option (string * string) :=
  match s with
  | EmptyString => None
  | String c t =>
      if Ascii.eqb c dquote then Some ("", t)
      else if Ascii.eqb c "\" then
        match t with
        | String "u" (String h1 (String h2 (String h3 (String h4 t')))) =>
            match decode_uXXXX (String h1 (String h2 (String h3 (String h4 "")))) with
            | None => None
            | Some (uni, _) =>
                if (55296 <=? uni)%N && (uni <=? 56319)%N then
                  match t' with
                  | String "\" (String "u" (String l1 (String l2 (String l3 (String l4 t''))))) =>
                      match decode_uXXXX (String l1 (String l2 (String l3 (String l4 "")))) with
                      | None => None
                      | Some (uni2, _) =>
                          if (56320 <=? uni2)%N && (uni2 <=? 57343)%N then
                            prepend
                              (chr (65536 + ((uni - 55296) * 1024 + (uni2 - 56320))))
                              (scanstring t'')
                          else prepend (chr uni) (scanstring t')
                      end
                  | String "\" (String "u" _) => None
                  | _ => prepend (chr uni) (scanstring t')
                  end
                else prepend (chr uni) (scanstring t')
            end
        | String "u" _ => None
        | String e t' =>
            match unescape e with
            | Some ch => prepend (String ch "") (scanstring t')
            | None => None
            end
        | EmptyString => None
        end
      else if is_control c then None
      else prepend (String c "") (scanstring t)
  end.

(** [NUMBER_RE]: an optional minus sign, then either a single 0 or a
    non-zero digit followed by digits; then an optional fraction (a dot and
    at least one digit) and an optional exponent (e or E, an optional sign,
    at least one digit).  Each part is returned with its punctuation, empty
    when absent, together with the remaining text. *)
Definition match_unsigned (s : string) : option (string * string) :=
  match s with
  | String c t =>
      if Ascii.eqb c "0" then Some ("0", t)
      else if is_digit c then let (d, r) := span_digits t in Some (String c d, r)
      else None
  | EmptyString => None
  end.

Definition match_integer (s : string) : option (string * string) :=
  match s with
  | String c t =>
      if Ascii.eqb c "-" then
        match match_unsigned t with
        | Some (i, r) => Some (String "-" i, r)
        | None => None
        end
      else match_unsigned s
  | EmptyString => None
  end.

Definition match_frac (s : string) : string * string :=
  match s with
  | String c t =>
      if Ascii.eqb c "." then
        match span_digits t with
        | (EmptyString, _) => ("", s)
        | (d, r) => (String "." d, r)
        end
      else ("", s)
  | EmptyString => ("", s)
  end.

Definition match_sign (s : string) : string * string :=
  match s with
  | String c t =>
      if Ascii.eqb c "+" || Ascii.eqb c "-" then (String c "", t) else ("", s)
  | EmptyString => ("", s)
  end.

Definition match_exp (s : string) : string * string :=
  match s with
  | String e t =>
      if Ascii.eqb e "e" || Ascii.eqb e "E" then
        let (sign, t1) := match_sign t in
        match span_digits t1 with
        | (EmptyString, _) => ("", s)
        | (d, r) => (String e (sign +:+ d), r)
        end
      else ("", s)
  | EmptyString => ("", s)
  end.

(** An integer literal becomes an [int], a literal with a fraction or an
    exponent a [float]. *)
Definition match_number (s : string) : option (pyval * string) :=
  match match_integer s with
  | None => None
  | Some (integer, r0) =>
      let (frac, r1) := match_frac r0 in
      let (exp, r2) := match_exp r1 in
      match frac, exp with
      | EmptyString, EmptyString =>
          match NilEmpty.int_of_string integer with
          | Some d => Some (PyInt (Z.of_int d), r2)
          | None => None
          end
      | _, _ => Some (PyFloat (integer +:+ frac +:+ exp), r2)
      end
  end.

(** [s.startswith(p)], returning the text after the prefix. *)
Fixpoint strip_prefix (p s : string) : option string :=
  match p, s with
  | EmptyString, _ => Some s
  | String a p', String b s' => if Ascii.eqb a b then strip_prefix p' s' else None
  | String _ _, EmptyString => None
  end.

Definition scan_constant (s : string) : option (pyval * string) :=
  match strip_prefix "null" s with Some r => Some (PyNone, r) | None =>
  match strip_prefix "true" s with Some r => Some (PyBool true, r) | None =>
  match strip_prefix "false" s with Some r => Some (PyBool false, r) | None =>
  match match_number s with Some res => Some res | None =>
  match strip_prefix "NaN" s with Some r => Some (PyFloat "NaN", r) | None =>
  match strip_prefix "Infinity" s with Some r => Some (PyFloat "Infinity", r) | None =>
  match strip_prefix "-Infinity" s with Some r => Some (PyFloat "-Infinity", r) | None =>
  None end end end end end end end.

(** [scan_once], [JSONArray] and [JSONObject].  The recursion of the
    decoder is bounded by [fuel]; [loads] below supplies enough of it for
    every input. *)
Fixpoint scan_once (fuel : nat) (s : string) : option (pyval * string) :=
  match fuel with
  | O => None
  | S n =>
      match s with
      | EmptyString => None
      | String c t =>
          if Ascii.eqb c dquote then
            match scanstring t with
            | Some (str, r) => Some (PyStr str, r)
            | None => None
            end
          else if Ascii.eqb c "{" then
            match skip_ws t with
            | String c' r =>
                if Ascii.eqb c' "}" then Some (PyDict [], r)
                else if Ascii.eqb c' dquote then
                  match JSONObject n r [] with
                  | Some (d, r') => Some (PyDict d, r')
                  | None => None
                  end
                else None
            | EmptyString => None
            end
          else if Ascii.eqb c "[" then
            match skip_ws t with
            | String c' r =>
                if Ascii.eqb c' "]" then Some (PyList [], r)
                else
                  match JSONArray n (String c' r) with
                  | Some (l, r') => Some (PyList l, r')
                  | None => None
                  end
            | EmptyString => None
            end
          else scan_constant s
      end
  end
with JSONArray (fuel : nat) (s : string) : option (list pyval * string) :=
  (* [s] starts at an element; the result ends after the closing bracket *)
  match fuel with
  | O => None
  | S n =>
      match scan_once n s with
      | None => None
      | Some (v, r) =>
          match skip_ws r with
          | String c r' =>
              if Ascii.eqb c "]" then Some ([v], r')
              else if Ascii.eqb c "," then
                match JSONArray n (skip_ws r') with
                | Some (l, r'') => Some (v :: l, r'')
                | None => None
                end
              else None
          | EmptyString => None
          end
      end
  end
with JSONObject (fuel : nat) (s : string) (acc : list (string * pyval))
     : option (list (string * pyval) * string) :=
  (* [s] starts after the opening quote of a key; [acc] is the dict so far *)
  match fuel with
  | O => None
  | S n =>
      match scanstring s with
      | None => None
      | Some (key, r) =>
          match skip_ws r with
          | String c r1 =>
              if Ascii.eqb c ":" then
                match scan_once n (skip_ws r1) with
                | None => None
                | Some (v, r2) =>
                    let acc' := Dict.set acc key v in
                    match skip_ws r2 with
                    | String c2 r3 =>
                        if Ascii.eqb c2 "}" then Some (acc', r3)
                        else if Ascii.eqb c2 "," then
                          match skip_ws r3 with
                          | String c3 r4 =>
                              if Ascii.eqb c3 dquote then JSONObject n r4 acc'
                              else None
                          | EmptyString => None
                          end
                        else None
                    | EmptyString => None
                    end
                end
              else None
          | EmptyString => None
          end
      end
  end.

(** [json.loads(s)]: one value surrounded by optional whitespace;
    [None] stands for [JSONDecodeError]. *)
Definition loads (s : string) : option pyval :=
  match scan_once (S (2 * String.length s)) (skip_ws s) with
  | Some (v, r) =>
      match skip_ws r with
      | EmptyString => Some v
      | _ => None
      end
  | None => None
  end.

(** *** Values the decoder can produce

    A float literal is one the scanner reads back, whole, as that float;
    the keys of a dict are pairwise distinct. *)
Definition is_float_literal (lit : string) : bool :=
  match scan_constant lit with
  | Some (PyFloat l, EmptyString) => String.eqb l lit
  | _ => false
  end.

Fixpoint unique_keys (ks : list string) : bool :=
  match ks with
  | [] => true
  | k :: ks' => negb (existsb (String.eqb k) ks') && unique_keys ks'
  end.

Fixpoint well_formed (v : pyval) : bool :=
  match v with
  | PyFloat lit => is_float_literal lit
  | PyList l => forallb well_formed l
  | PyDict d =>
      unique_keys (map fst d) && forallb (fun kv => well_formed (snd kv)) d
  | _ => true
  end.

End Json.

(** ** String methods and [int()] *)
Module Str.

Definition code (c : ascii) : N := N_of_ascii c.

(** [str.isspace] on one character: tab to carriage return, the four
    separators 28-31 and the blank.  (Whitespace outside ASCII is not
    represented.) *)
Definition is_space (c : ascii) : bool :=
  ((9 <=? code c) && (code c <=? 13) || (28 <=? code c) && (code c <=? 32))%N.

Fixpoint lstrip (s : string) : string :=
  match s with
  | String c t => if is_space c then lstrip t else s
  | EmptyString => s
  end.

Fixpoint rstrip (s : string) : string :=
  match s with
  | String c t =>
      match rstrip t with
      | EmptyString => if is_space c then "" else String c ""
      | t' => String c t'
      end
  | EmptyString => ""
  end.

Definition strip (s : string) : string := rstrip (lstrip s).

Definition startswith (s p : string) : bool := String.prefix p s.

(** [p in s] for two strings. *)
Fixpoint contains (s p : string) : bool :=
  String.prefix p s ||
  match s with
  | String _ t => contains t p
  | EmptyString => false
  end.

(** Text-mode reading with universal newlines, cut into lines. *)
Fixpoint splitlines_go (cur : string) (s : string) : list string :=
  match s with
  | EmptyString => match cur with EmptyString => [] | _ => [String.rev cur] end
  | String c t =>
      if Ascii.eqb c "010" then String.rev cur :: splitlines_go "" t
      else if Ascii.eqb c "013" then
        match t with
        | String "010" t' => String.rev cur :: splitlines_go "" t'
        | _ => String.rev cur :: splitlines_go "" t
        end
      else splitlines_go (String c cur) t
  end.

Definition splitlines (s : string) : list string := splitlines_go "" s.

Fixpoint join (sep : string) (l : list string) : string :=
  match l with
  | [] => ""
  | [x] => x
  | x :: l' => x +:+ sep +:+ join sep l'
  end.

(** The index of the first character that is not whitespace. *)
Fixpoint indent (s : string) : nat :=
  match s with
  | String c t => if is_space c then S (indent t) else O
  | EmptyString => O
  end.

(** The text before and after the first character satisfying [p]. *)
Fixpoint split_first (p : ascii -> bool) (s : string) : option (string * string) :=
  match s with
  | EmptyString => None
  | String c t =>
      if p c then Some ("", t)
      else match split_first p t with
           | Some (a, b) => Some (String c a, b)
           | None => None
           end
  end.

(** The text before the last occurrence of [c]. *)
Fixpoint before_last (c : ascii) (s : string) : option string :=
  match s with
  | EmptyString => None
  | String a t =>
      match before_last c t with
      | Some p => Some (String a p)
      | None => if Ascii.eqb a c then Some "" else None
      end
  end.

Definition is_digit (c : ascii) : bool := (48 <=? code c)%N && (code c <=? 57)%N.
Definition digit (c : ascii) : Z := Z.of_N (code c) - 48.

(** The digits of a decimal literal after the first one; an underscore
    may stand between two digits. *)
Fixpoint int_digits (acc : Z) (s : string) : option Z :=
  match s with
  | EmptyString => Some acc
  | String c t =>
      if is_digit c then int_digits (acc * 10 + digit c) t
      else if Ascii.eqb c "_" then
        match t with
        | String d t' =>
            if is_digit d then int_digits (acc * 10 + digit d) t' else None
        | EmptyString => None
        end
      else None
  end.

Definition int_space (c : ascii) : bool :=
  ((9 <=? code c) && (code c <=? 13) || (code c =? 32))%N.

Fixpoint int_lstrip (s : string) : string :=
  match s with
  | String c t => if int_space c then int_lstrip t else s
  | EmptyString => s
  end.

Fixpoint int_rstrip (s : string) : string :=
  match s with
  | String c t =>
      match int_rstrip t with
      | EmptyString => if int_space c then "" else String c ""
      | t' => String c t'
      end
  | EmptyString => ""
  end.

Definition int_unsigned (s : string) : option Z :=
  match s with
  | String c t => if is_digit c then int_digits (digit c) t else None
  | EmptyString => None
  end.

(** [int(s)] for a string, base ten; [None] is [ValueError].
    (Decimal digits outside ASCII are not represented.) *)
Definition int (s : string) : option Z :=
  match int_rstrip (int_lstrip s) with
  | String "-" t => option_map Z.opp (int_unsigned t)
  | String "+" t => int_unsigned t
  | t => int_unsigned t
  end.

(** [str(n)] for an integer. *)
Definition of_int (n : Z) : string := NilEmpty.string_of_int (Z.to_int n).

End Str.

(** ** [configparser.ConfigParser] with [optionxform = str]

    [read] follows [RawConfigParser._read] line by line with the defaults of
    the constructor: delimiters [=] and [:], full-line comments starting with
    [#] or [;], no inline comments, [strict], empty lines allowed inside
    values, values required.  A section is then converted by
    [dict(parser[name])], which lists the options of the section followed by
    those of [DEFAULT] and interpolates every value ([BasicInterpolation]). *)
Module ConfigParser.

Inductive error : Type :=
| MissingSectionHeaderError (lineno : nat)
| DuplicateSectionError (section : string)
| DuplicateOptionError (section option : string)
| ParsingError
| InterpolationSyntaxError (section option : string)
| InterpolationMissingOptionError (section option reference : string)
| InterpolationDepthError (section option : string).

(** An option with the lines of its value. *)
Definition options := list (string * list string).

Record state : Type := {
  sections : list (string * options);
  defaults : options;
  cursect : option string;   (* the section being filled *)
  optname : option string;   (* the option a continuation line extends *)
  indent_level : nat;
  elements_added : list (string * option string);
  pending : bool             (* a ParsingError to raise after the last line *)
}.

Definition empty : state :=
  {| sections := []; defaults := []; cursect := None; optname := None;
     indent_level := 0; elements_added := []; pending := false |}.

Definition default_section : string := "DEFAULT".

Definition current (st : state) (name : string) : options :=
  if String.eqb name default_section then defaults st
  else Dict.get_default (sections st) name [].

Definition with_current (st : state) (name : string) (o : options) : state :=
  if String.eqb name default_section then
    {| sections := sections st; defaults := o; cursect := cursect st;
       optname := optname st; indent_level := indent_level st;
       elements_added := elements_added st; pending := pending st |}
  else
    {| sections := Dict.set (sections st) name o; defaults := defaults st;
       cursect := cursect st; optname := optname st;
       indent_level := indent_level st;
       elements_added := elements_added st; pending := pending st |}.

(** [cursect[optname].append(value)] *)
Definition append_value (st : state) (name opt value : string) : state :=
  let o := current st name in
  with_current st name (Dict.set o opt (Dict.get_default o opt [] ++ [value])%list).

Definition is_comment (stripped : string) : bool :=
  Str.startswith stripped "#" || Str.startswith stripped ";".

Definition is_delimiter (c : ascii) : bool := Ascii.eqb c "=" || Ascii.eqb c ":".

(** [SECTCRE]: an opening bracket, a non-empty header, a closing bracket
    (the last one of the line). *)
Definition match_section (value : string) : option string :=
  match value with
  | String "[" t =>
      match Str.before_last "]" t with
      | Some (String c h) => Some (String c h)
      | _ => None
      end
  | _ => None
  end.

(** [OPTCRE]: the option up to the first delimiter, and the value. *)
Definition match_option (value : string) : option (string * string) :=
  match Str.split_first is_delimiter value with
  | Some (o, v) => Some (Str.rstrip o, v)
  | None => None
  end.

Definition added (st : state) (e : string * option string) : bool :=
  existsb (fun x =>
             String.eqb (fst x) (fst e) &&
             match snd x, snd e with
             | Some a, Some b => String.eqb a b
             | None, None => true
             | _, _ => false
             end) (elements_added st).

Definition truthy (o : option string) : option string :=
  match o with
  | Some (String c t) => Some (String c t)
  | _ => None
  end.

(** One line of the file. *)
Definition read_line (lineno : nat) (line : string) (st : state) : error + state :=
  let stripped := Str.strip line in
  let comment := is_comment stripped in
  let value := if comment then "" else stripped in
  match value with
  | EmptyString =>
      match comment, cursect st, truthy (optname st) with
      | false, Some name, Some opt => inr (append_value st name opt "")
      | _, _, _ => inr st
      end
  | _ =>
      let cur_indent_level := Str.indent line in
      let continued :=
        match cursect st, truthy (optname st) with
        | Some name, Some opt =>
            if (indent_level st <? cur_indent_level)%nat
            then Some (append_value st name opt value) else None
        | _, _ => None
        end in
      match continued with
      | Some st' => inr st'
      | None =>
          match match_section value with
          | Some sectname =>
              if Dict.contains (sections st) sectname then
                (* a fresh parser has added every section it holds *)
                inl (DuplicateSectionError sectname)
              else if String.eqb sectname default_section then
                inr {| sections := sections st; defaults := defaults st;
                       cursect := Some sectname; optname := None;
                       indent_level := cur_indent_level;
                       elements_added := elements_added st;
                       pending := pending st |}
              else
                inr {| sections := (sections st ++ [(sectname, [])])%list;
                       defaults := defaults st;
                       cursect := Some sectname; optname := None;
                       indent_level := cur_indent_level;
                       elements_added := (sectname, None) :: elements_added st;
                       pending := pending st |}
          | None =>
              match cursect st with
              | None => inl (MissingSectionHeaderError lineno)
              | Some sectname =>
                  match match_option value with
                  | Some (opt, optval) =>
                      if added st (sectname, Some opt) then
                        inl (DuplicateOptionError sectname opt)
                      else
                        let st1 :=
                          {| sections := sections st; defaults := defaults st;
                             cursect := cursect st; optname := Some opt;
                             indent_level := cur_indent_level;
                             elements_added :=
                               (sectname, Some opt) :: elements_added st;
                             pending :=
                               pending st ||
                               match opt with EmptyString => true | _ => false end |} in
                        inr (with_current st1 sectname
                               (Dict.set (current st1 sectname) opt [Str.strip optval]))
                  | None =>
                      inr {| sections := sections st; defaults := defaults st;
                             cursect := cursect st; optname := optname st;
                             indent_level := cur_indent_level;
                             elements_added := elements_added st;
                             pending := true |}
                  end
              end
          end
      end
  end.

Fixpoint read_lines (lineno : nat) (lines : list string) (st : state) : error + state :=
  match lines with
  | [] => inr st
  | line :: rest =>
      match read_line lineno line st with
      | inl e => inl e
      | inr st' => read_lines (S lineno) rest st'
      end
  end.

(** What the parser holds after reading: raw values, lines joined. *)
Record parser : Type := {
  p_sections : list (string * list (string * string));
  p_defaults : list (string * string)
}.

Definition join_values (o : options) : list (string * string) :=
  map (fun kv => (fst kv, Str.rstrip (Str.join (String "010" "") (snd kv)))) o.

Definition finish (st : state) : error + parser :=
  if pending st then inl ParsingError
  else inr {| p_sections := map (fun s => (fst s, join_values (snd s))) (sections st);
              p_defaults := join_values (defaults st) |}.

Definition new : parser := {| p_sections := []; p_defaults := [] |}.

(** [parser.read_file] on the decoded text of a file. *)
Definition read_text (text : string) : error + parser :=
  match read_lines 1 (Str.splitlines text) empty with
  | inl e => inl e
  | inr st => finish st
  end.

(** [name in parser] *)
Definition contains (p : parser) (name : string) : bool :=
  String.eqb name default_section || Dict.contains (p_sections p) name.

(** The options of a section, its own first and then the defaults. *)
Definition unify (p : parser) (name : string) : list (string * string) :=
  fold_left (fun d kv => if Dict.contains d (fst kv) then d else (d ++ [kv])%list)
    (p_defaults p) (Dict.get_default (p_sections p) name []).

(** [KEYCRE] at a text that starts with an opening parenthesis: the
    name up to the closing one, which an [s] must follow. *)
Definition match_key (rest : string) : option (string * string) :=
  match Str.split_first (fun c => Ascii.eqb c ")") rest with
  | Some (String c name, String "s" after) => Some (String c name, after)
  | _ => None
  end.

Inductive interp_error : Type := BadSyntax | MissingOption (ref : string) | TooDeep.

(** [BasicInterpolation._interpolate_some]; [depth] counts down from
    [MAX_INTERPOLATION_DEPTH]. *)
Fixpoint interpolate_text (fuel : nat) (interp : string -> interp_error + string)
         (rest : string) : interp_error + string :=
  match fuel with
  | O => inl BadSyntax
  | S fuel' =>
      match rest with
      | EmptyString => inr ""
      | String "%" (String "%" t) =>
          match interpolate_text fuel' interp t with
          | inr s => inr (String "%" s)
          | inl e => inl e
          end
      | String "%" (String "(" t) =>
          match match_key t with
          | None => inl BadSyntax
          | Some (var, after) =>
              match interp var with
              | inl e => inl e
              | inr v =>
                  match interpolate_text fuel' interp after with
                  | inr s => inr (v +:+ s)
                  | inl e => inl e
                  end
              end
          end
      | String "%" _ => inl BadSyntax
      | String c t =>
          match interpolate_text fuel' interp t with
          | inr s => inr (String c s)
          | inl e => inl e
          end
      end
  end.

Fixpoint interpolate (depth : nat) (map : list (string * string)) (value : string)
  : interp_error + string :=
  match depth with
  | O => inl TooDeep
  | S depth' =>
      interpolate_text (S (String.length value))
        (fun var =>
           match Dict.get map var with
           | None => inl (MissingOption var)
           | Some v =>
               if Str.contains v "%" then interpolate depth' map v else inr v
           end)
        value
  end.

Definition MAX_INTERPOLATION_DEPTH : nat := 10.

Fixpoint get_all (section : string) (map keys : list (string * string))
  : error + list (string * string) :=
  match keys with
  | [] => inr []
  | (k, v) :: keys' =>
      match interpolate MAX_INTERPOLATION_DEPTH map v with
      | inl BadSyntax => inl (InterpolationSyntaxError section k)
      | inl (MissingOption r) => inl (InterpolationMissingOptionError section k r)
      | inl TooDeep => inl (InterpolationDepthError section k)
      | inr v' =>
          match get_all section map keys' with
          | inl e => inl e
          | inr d => inr ((k, v') :: d)
          end
      end
  end.

(** [dict(parser[name])] for a section the parser contains. *)
Definition section_dict (p : parser) (name : string) : error + list (string * string) :=
  let m := unify p name in get_all name m m.

End ConfigParser.

(** ** The world the server runs in *)

(** A regular file: its text and its modification time. *)
Record file : Type := { content : string; mtime : Z }.

(** A [requests.Response]: the status code and what [response.json()]
    does, return the decoded body or raise [JSONDecodeError] (a
    [RequestException] since requests 2.27) with a message. *)
Record Response : Type := {
  status_code : Z;
  json : string + pyval
}.

(** What [requests.get(url)] meets: a response, or a transport failure
    ([ConnectionError], [Timeout], ...: all of them [RequestException]s). *)
Inductive get_outcome : Type :=
| Responded (r : Response)
| Failed (message : string).

Inductive exn : Type :=
| KeyError (key : string)
| TypeError (message : string)
| ValueError (message : string)
| AttributeError (message : string)
| FileNotFoundError (path : string)
| OSError (message : string)
| JSONDecodeError
| RequestException (message : string)
| ConfigError (e : ConfigParser.error).

(** [str(e)] for the exceptions whose message the program reads. *)
Definition exn_str (e : exn) : string :=
  match e with
  | KeyError k => "'" +:+ k +:+ "'"
  | TypeError m | ValueError m | AttributeError m | OSError m
  | RequestException m => m
  | FileNotFoundError p => "[Errno 2] No such file or directory: '" +:+ p +:+ "'"
  | JSONDecodeError => "Expecting value"
  | ConfigError _ => "configparser error"
  end.

(** A section of the configuration: option names and their values. *)
Abbreviation section := (list (string * string)).

Record World : Type := {
  (* the environment *)
  fs : gmap string file;
  clock : Z;
      (* [datetime.now()], microseconds *)
  upstream : string -> get_outcome;
      (* what a GET of the URL meets *)
  shell_failure : option string;
      (* set when the operating system cannot start a shell ([OSError]) *)
  (* the globals of the module *)
  config : gmap string section;
  JSON_FILE_YOUTUBE : option string;
  JSON_FILE_WEATHER : option string;
  (* what the program has done *)
  requests_sent : list string;
  processes : list string;
      (* commands handed to a shell, none of them waited for *)
  stdout : list string
}.

Definition set_fs (f : gmap string file) (w : World) : World :=
  {| fs := f; clock := clock w; upstream := upstream w;
     shell_failure := shell_failure w; config := config w;
     JSON_FILE_YOUTUBE := JSON_FILE_YOUTUBE w;
     JSON_FILE_WEATHER := JSON_FILE_WEATHER w;
     requests_sent := requests_sent w; processes := processes w;
     stdout := stdout w |}.

Definition set_config (c : gmap string section) (w : World) : World :=
  {| fs := fs w; clock := clock w; upstream := upstream w;
     shell_failure := shell_failure w; config := c;
     JSON_FILE_YOUTUBE := JSON_FILE_YOUTUBE w;
     JSON_FILE_WEATHER := JSON_FILE_WEATHER w;
     requests_sent := requests_sent w; processes := processes w;
     stdout := stdout w |}.

Definition set_json_files (y wf : option string) (w : World) : World :=
  {| fs := fs w; clock := clock w; upstream := upstream w;
     shell_failure := shell_failure w; config := config w;
     JSON_FILE_YOUTUBE := y; JSON_FILE_WEATHER := wf;
     requests_sent := requests_sent w; processes := processes w;
     stdout := stdout w |}.

Definition set_requests_sent (l : list string) (w : World) : World :=
  {| fs := fs w; clock := clock w; upstream := upstream w;
     shell_failure := shell_failure w; config := config w;
     JSON_FILE_YOUTUBE := JSON_FILE_YOUTUBE w;
     JSON_FILE_WEATHER := JSON_FILE_WEATHER w;
     requests_sent := l; processes := processes w; stdout := stdout w |}.

Definition set_processes (l : list string) (w : World) : World :=
  {| fs := fs w; clock := clock w; upstream := upstream w;
     shell_failure := shell_failure w; config := config w;
     JSON_FILE_YOUTUBE := JSON_FILE_YOUTUBE w;
     JSON_FILE_WEATHER := JSON_FILE_WEATHER w;
     requests_sent := requests_sent w; processes := l; stdout := stdout w |}.

Definition set_stdout (l : list string) (w : World) : World :=
  {| fs := fs w; clock := clock w; upstream := upstream w;
     shell_failure := shell_failure w; config := config w;
     JSON_FILE_YOUTUBE := JSON_FILE_YOUTUBE w;
     JSON_FILE_WEATHER := JSON_FILE_WEATHER w;
     requests_sent := requests_sent w; processes := processes w; stdout := l |}.

(** ** Python computations: state and exceptions *)

Inductive outcome (A : Type) : Type :=
| Return (a : A)
| Raise (e : exn).
Arguments Return {A} a.
Arguments Raise {A} e.

Definition Py (A : Type) : Type := World -> outcome A * World.

Definition ret {A} (a : A) : Py A := fun w => (Return a, w).
Definition raise {A} (e : exn) : Py A := fun w => (Raise e, w).

Definition bind {A B} (m : Py A) (k : A -> Py B) : Py B :=
  fun w =>
    match m w with
    | (Return a, w') => k a w'
    | (Raise e, w') => (Raise e, w')
    end.

Notation "x <- m ;; k" := (bind m (fun x => k))
  (at level 100, m at next level, right associativity).
Notation "m ;;; k" := (bind m (fun _ => k))
  (at level 100, right associativity).

(** [try: m  except E as e: h e], where [handles e] tells whether [e] is
    an [E]. *)
Definition try_except {A} (m : Py A) (handles : exn -> bool) (h : exn -> Py A) : Py A :=
  fun w =>
    match m w with
    | (Raise e, w') => if handles e then h e w' else (Raise e, w')
    | r => r
    end.

Definition get_world : Py World := fun w => (Return w, w).
Definition modify (f : World -> World) : Py unit := fun w => (Return tt, f w).

Definition is_FileNotFoundError (e : exn) : bool :=
  match e with FileNotFoundError _ => true | _ => false end.
Definition is_RequestException (e : exn) : bool :=
  match e with RequestException _ => true | _ => false end.
(** Every exception of the model derives from [Exception]. *)
Definition is_Exception (e : exn) : bool := true.

(** *** Library calls *)

Definition print (line : string) : Py unit :=
  modify (fun w => set_stdout (stdout w ++ [line])%list w).

(** A path argument is a [str]; the module globals are [None] until
    [load_ini] has run. *)
Definition fspath (p : option string) (who : string) : Py string :=
  match p with
  | Some path => ret path
  | None => raise (TypeError (who +:+ ": path should be string, not NoneType"))
  end.

Definition os_path_exists (p : option string) : Py bool :=
  path <- fspath p "stat" ;;
  w <- get_world ;;
  ret (bool_decide (is_Some (fs w !! path))).

Definition os_path_getmtime (p : option string) : Py Z :=
  path <- fspath p "stat" ;;
  w <- get_world ;;
  match fs w !! path with
  | Some f => ret (mtime f)
  | None => raise (FileNotFoundError path)
  end.

Definition os_remove (p : option string) : Py unit :=
  path <- fspath p "remove" ;;
  w <- get_world ;;
  match fs w !! path with
  | Some _ => modify (fun w => set_fs (delete path (fs w)) w)
  | None => raise (FileNotFoundError path)
  end.

(** [with open(p, "r", encoding="utf-8") as f: f.read()] *)
Definition read_file (p : option string) : Py string :=
  path <- fspath p "open" ;;
  w <- get_world ;;
  match fs w !! path with
  | Some f => ret (content f)
  | None => raise (FileNotFoundError path)
  end.

(** [with open(p, "w", encoding="utf-8") as f: f.write(text)] *)
Definition write_file (p : option string) (text : string) : Py unit :=
  path <- fspath p "open" ;;
  modify (fun w => set_fs (<[path := {| content := text; mtime := clock w |}]> (fs w)) w).

Definition datetime_now : Py Z := fun w => (Return (clock w), w).

(** [datetime.timedelta(minutes=n)] in microseconds. *)
Definition timedelta_minutes (n : Z) : Z := n * 60000000.

(** [json.load(f)] on the text of a file. *)
Definition json_loads (text : string) : Py pyval :=
  match Json.loads text with
  | Some v => ret v
  | None => raise JSONDecodeError
  end.

(** [requests.get(url)] *)
Definition requests_get (url : string) : Py Response :=
  modify (fun w => set_requests_sent (requests_sent w ++ [url])%list w) ;;;
  w <- get_world ;;
  match upstream w url with
  | Responded r => ret r
  | Failed m => raise (RequestException m)
  end.

(** [response.json()] *)
Definition response_json (r : Response) : Py pyval :=
  match json r with
  | inr v => ret v
  | inl m => raise (RequestException m)
  end.

(** [subprocess.Popen(cmd, shell=True)]: the command line is handed to a
    new shell process and the call returns at once.  It raises when the
    string has a NUL character or when the shell itself cannot be started;
    whether the command names a program that exists is found out later, by
    the shell, and is not reported to the caller. *)
Definition Popen_shell (cmd : string) : Py unit :=
  if Str.contains cmd (String zero "") then raise (ValueError "embedded null byte")
  else
    w <- get_world ;;
    match shell_failure w with
    | Some m => raise (OSError m)
    | None => modify (fun w => set_processes (processes w ++ [cmd])%list w)
    end.

(** [configparser.ConfigParser().read(path, encoding="utf-8")]: a file that
    cannot be opened is skipped. *)
Definition ConfigParser_read (path : string) : Py ConfigParser.parser :=
  w <- get_world ;;
  match fs w !! path with
  | None => ret ConfigParser.new
  | Some f =>
      match ConfigParser.read_text (content f) with
      | inr p => ret p
      | inl e => raise (ConfigError e)
      end
  end.

(** [dict(parser[name]) if name in parser else {}] *)
Definition section_or_empty (p : ConfigParser.parser) (name : string) : Py section :=
  if ConfigParser.contains p name then
    match ConfigParser.section_dict p name with
    | inr d => ret d
    | inl e => raise (ConfigError e)
    end
  else ret [].

(** [x in data] for a string [x]: keys of a dict, elements of a list,
    substrings of a string; the other values are not containers. *)
Definition pyval_eqb_str (v : pyval) (x : string) : bool :=
  match v with PyStr s => String.eqb s x | _ => false end.

Definition py_contains (x : string) (data : pyval) : string + bool :=
  match data with
  | PyDict d => inr (Dict.contains d x)
  | PyList l => inr (existsb (fun v => pyval_eqb_str v x) l)
  | PyStr s => inr (Str.contains s x)
  | PyNone => inl "argument of type 'NoneType' is not iterable"
  | PyBool _ => inl "argument of type 'bool' is not iterable"
  | PyInt _ => inl "argument of type 'int' is not iterable"
  | PyFloat _ => inl "argument of type 'float' is not iterable"
  end.

Definition py_in (x : string) (data : pyval) : Py bool :=
  match py_contains x data with
  | inr b => ret b
  | inl m => raise (TypeError m)
  end.

(** [config[name]] and [config.get(name, {})] on the global dict. *)
Definition config_getitem (name : string) : Py section :=
  w <- get_world ;;
  match config w !! name with
  | Some s => ret s
  | None => raise (KeyError name)
  end.

Definition config_get (name : string) : Py section :=
  w <- get_world ;;
  ret (default [] (config w !! name)).

Definition config_setitem (name : string) (s : section) : Py unit :=
  modify (fun w => set_config (<[name := s]> (config w)) w).

(** ** Flask *)

Inductive body : Type :=
| Jsonified (v : pyval)
    (* [jsonify(v)] *)
| Text (text mimetype : string).
    (* [Response(text, mimetype=...)] *)

Record HttpResponse : Type := { status : Z; payload : body }.

Definition jsonify (v : pyval) (code : Z) : Py HttpResponse :=
  ret {| status := code; payload := Jsonified v |}.

Definition section_value (s : section) : pyval :=
  PyDict (map (fun kv => (fst kv, PyStr (snd kv))) s).

(** ** The program: [main.py] *)

Definition INI_FILE : string := "config.ini".

Definition load_ini : Py unit :=
  parser <- ConfigParser_read INI_FILE ;;
  settings <- section_or_empty parser "AppSettings" ;;
  config_setitem "Settings" settings ;;;
  apps <- section_or_empty parser "Apps" ;;
  config_setitem "Apps" apps ;;;
  links <- section_or_empty parser "Links" ;;
  config_setitem "Links" links ;;;
  socials <- section_or_empty parser "Socials" ;;
  config_setitem "Socials" socials ;;;
  s <- config_getitem "Settings" ;;
  modify (set_json_files
            (Some (Dict.get_default s "YoutubeJSON" "youtube_data.json"))
            (Some (Dict.get_default s "WeatherJSON" "weather_data.json"))).

Definition anime_placeholder : pyval :=
  PyList
    [PyDict [("img", PyStr "https://placehold.co/150x220?text=Anim+Test");
             ("status", PyStr "Episode 7");
             ("title", PyStr "Test API");
             ("url", PyStr "about:blank")]].

Definition load_youtube_from_file : Py pyval :=
  try_except
    (w <- get_world ;;
     text <- read_file (JSON_FILE_YOUTUBE w) ;;
     youtube_dict <- json_loads text ;;
     ret youtube_dict)
    is_FileNotFoundError
    (fun _ => ret (PyDict [])).

(** [int(x)] where [x] is a configuration string or an integer default. *)
Definition py_int (x : string + Z) : Py Z :=
  match x with
  | inr n => ret n
  | inl s =>
      match Str.int s with
      | Some n => ret n
      | None => raise (ValueError ("invalid literal for int() with base 10: " +:+ s))
      end
  end.

Definition is_ValueError_or_TypeError (e : exn) : bool :=
  match e with ValueError _ | TypeError _ => true | _ => false end.

(** [settings.get(key, default)] with an integer default. *)
Definition get_or_int (s : section) (key : string) (dflt : Z) : string + Z :=
  match Dict.get s key with
  | Some v => inl v
  | None => inr dflt
  end.

Definition file_create (filename : option string) : Py bool :=
  interval <-
    try_except
      (settings <- config_getitem "Settings" ;;
       py_int (get_or_int settings "DataRenewalInterval" 6))
      is_ValueError_or_TypeError
      (fun _ => ret 6) ;;
  create_ts <- os_path_getmtime filename ;;
  now <- datetime_now ;;
  if timedelta_minutes interval <? now - create_ts then ret true else ret false.

Definition save_weather_to_file (data : pyval) : Py unit :=
  w <- get_world ;;
  write_file (JSON_FILE_WEATHER w) (Json.dumps data).

Definition should_update_weather_file : Py bool :=
  w <- get_world ;;
  present <- os_path_exists (JSON_FILE_WEATHER w) ;;
  if negb present then ret true
  else file_create (JSON_FILE_WEATHER w).

Definition error_value (message : string) : pyval :=
  PyDict [("error", PyStr message)].

Definition weather_url (lat lon api_key : string) : string :=
  "https://api.openweathermap.org/data/2.5/weather?lat=" +:+ lat +:+
  "&lon=" +:+ lon +:+ "&appid=" +:+ api_key +:+ "&units=metric".

Definition fetch_weather_from_api : Py pyval :=
  settings <- config_getitem "Settings" ;;
  let api_key := Dict.get_default settings "WeatherAPIKey" "" in
  if String.eqb api_key "" then ret (error_value "No API key provided")
  else
    settings <- config_getitem "Settings" ;;
    let lat := Dict.get_default settings "Latitude" "0" in
    settings <- config_getitem "Settings" ;;
    let lon := Dict.get_default settings "Longitude" "0" in
    let url := weather_url lat lon api_key in
    try_except
      (response <- requests_get url ;;
       if status_code response =? 200 then response_json response
       else ret (error_value ("API request failed with status code " +:+
                              Str.of_int (status_code response))))
      is_RequestException
      (fun e => ret (error_value (exn_str e))).

Definition update_weather_file (data : pyval) : Py unit :=
  w <- get_world ;;
  present <- os_path_exists (JSON_FILE_WEATHER w) ;;
  (if present then os_remove (JSON_FILE_WEATHER w) else ret tt) ;;;
  save_weather_to_file data ;;;
  print "Weather data downloaded!".

(** The age of the file is printed in microseconds here, where the source
    formats it in minutes with one decimal. *)
Definition get_weather_data_from_api : Py pyval :=
  print "Getting weather data..." ;;;
  stale <- should_update_weather_file ;;
  if stale then
    data <- fetch_weather_from_api ;;
    has_error <- py_in "error" data ;;
    (if negb has_error then update_weather_file data else ret tt) ;;;
    ret data
  else
    w <- get_world ;;
    ts <- os_path_getmtime (JSON_FILE_WEATHER w) ;;
    now <- datetime_now ;;
    print ("Weather file is up-to-date, last update " +:+ Str.of_int (now - ts)
           +:+ " us ago") ;;;
    text <- read_file (JSON_FILE_WEATHER w) ;;
    json_loads text.

Definition get_weather : Py HttpResponse :=
  data <- get_weather_data_from_api ;;
  ret {| status := 200; payload := Text (Json.dumps data) "application/json" |}.

Definition get_socials : Py HttpResponse :=
  s <- config_get "Socials" ;;
  jsonify (section_value s) 200.

Definition get_anime : Py HttpResponse := jsonify anime_placeholder 200.

(** [youtube_data.items()] *)
Definition dict_items (v : pyval) : Py (list (string * pyval)) :=
  match v with
  | PyDict d => ret d
  | _ => raise (AttributeError "object has no attribute 'items'")
  end.

(** [dict(url=url, **data)] *)
Definition dict_url (url : string) (data : pyval) : Py pyval :=
  match data with
  | PyDict d =>
      if Dict.contains d "url" then
        raise (TypeError "dict() got multiple values for keyword argument 'url'")
      else ret (PyDict (("url", PyStr url) :: d))
  | _ => raise (TypeError "dict() argument after ** must be a mapping")
  end.

(** A list comprehension whose element expression may raise. *)
Fixpoint comprehension {A B} (f : A -> Py B) (l : list A) : Py (list B) :=
  match l with
  | [] => ret []
  | x :: l' =>
      y <- f x ;;
      ys <- comprehension f l' ;;
      ret (y :: ys)
  end.

Definition get_youtube : Py HttpResponse :=
  youtube_data <- load_youtube_from_file ;;
  items <- dict_items youtube_data ;;
  youtube_list <- comprehension (fun kv => dict_url (fst kv) (snd kv)) items ;;
  jsonify (PyList youtube_list) 200.

Definition api_settings : Py HttpResponse :=
  s <- config_get "Settings" ;;
  jsonify (section_value s) 200.

Definition api_apps : Py HttpResponse :=
  s <- config_get "Apps" ;;
  jsonify (section_value s) 200.

Definition api_links : Py HttpResponse :=
  s <- config_get "Links" ;;
  jsonify (section_value s) 200.

Definition run_app (app_name : string) : Py HttpResponse :=
  apps <- config_get "Apps" ;;
  match Dict.get apps app_name with
  | Some path =>
      try_except
        (Popen_shell path ;;;
         jsonify (PyDict [("status", PyStr "ok")]) 200)
        is_Exception
        (fun e => jsonify (error_value (exn_str e)) 500)
  | None => jsonify (error_value "App not found") 404
  end.

Definition reload_settings : Py HttpResponse :=
  load_ini ;;;
  jsonify (PyDict [("status", PyStr "reloaded")]) 200.

(** The [__main__] block up to [app.run]: the address the server binds. *)
Definition main : Py (string * Z) :=
  load_ini ;;;
  settings <- config_getitem "Settings" ;;
  let work_on_ip := Dict.get_default settings "IP" "0.0.0.0" in
  settings <- config_getitem "Settings" ;;
  work_on_port <-
    try_except
      (py_int (get_or_int settings "Port" 5000))
      is_ValueError_or_TypeError
      (fun _ => ret 5000) ;;
  ret (work_on_ip, work_on_port).

(** *** Routing

    The JSON routes of the application (the home page, a template, is left
    out).  An exception that leaves a view function becomes the response
    500 of Flask. *)
Inductive request : Type :=
| GET_api_weather
| GET_api_socials
| GET_api_anime
| GET_api_youtube
| GET_api_settings
| GET_api_apps
| GET_api_links
| POST_run (app_name : string)
| POST_reload_settings.

Definition view (r : request) : Py HttpResponse :=
  match r with
  | GET_api_weather => get_weather
  | GET_api_socials => get_socials
  | GET_api_anime => get_anime
  | GET_api_youtube => get_youtube
  | GET_api_settings => api_settings
  | GET_api_apps => api_apps
  | GET_api_links => api_links
  | POST_run app_name => run_app app_name
  | POST_reload_settings => reload_settings
  end.

Definition internal_server_error : HttpResponse :=
  {| status := 500; payload := Text "Internal Server Error" "text/html" |}.

Definition serve (r : request) (w : World) : HttpResponse * World :=
  match view r w with
  | (Return resp, w') => (resp, w')
  | (Raise _, w') => (internal_server_error, w')
  end.

(** ** Vocabulary of the specification

    The notions the specification speaks in, written after its words; the
    theorems relate them to the functions above. *)

(** The module state once [load_ini] has run: the [Settings] section is
    there and the two file names are strings. *)
Definition loaded (w : World) : Prop :=
  is_Some (config w !! "Settings") /\
  is_Some (JSON_FILE_YOUTUBE w) /\ is_Some (JSON_FILE_WEATHER w).

Definition settings_of (w : World) : section := default [] (config w !! "Settings").
Definition weather_path (w : World) : string := default "" (JSON_FILE_WEATHER w).
Definition youtube_path (w : World) : string := default "" (JSON_FILE_YOUTUBE w).

(** [N] minutes as a duration. *)
Definition minutes (N : Z) : Z := N * 60000000.

(** The age of a file: now minus its modification time. *)
Definition age (w : World) (f : file) : Z := clock w - mtime f.

Module Spec.

(** [DataRenewalInterval] parsed as minutes: default 6, and 6 again when
    the configured value does not parse. *)
Definition renewal_interval (w : World) : Z :=
  match Dict.get (settings_of w) "DataRenewalInterval" with
  | Some s => match Str.int s with Some n => n | None => 6 end
  | None => 6
  end.

(** The three states of the cached weather resource (section 4.2). *)
Inductive cache_state : Type := MISSING | STALE | FRESH.

Definition weather_cache (w : World) : cache_state :=
  match fs w !! weather_path w with
  | None => MISSING
  | Some f => if minutes (renewal_interval w) <? age w f then STALE else FRESH
  end.

Definition api_key (w : World) : string :=
  Dict.get_default (settings_of w) "WeatherAPIKey" "".

(** The URL of the weather API for the configured place and key. *)
Definition request_url (w : World) : string :=
  weather_url (Dict.get_default (settings_of w) "Latitude" "0")
              (Dict.get_default (settings_of w) "Longitude" "0")
              (api_key w).

(** The fetcher's result by cases (section 4.3): no key; transport
    failure; status 200 with a body that decodes, or that does not;
    any other status. *)
Definition fetch_result (w : World) : pyval :=
  if String.eqb (api_key w) "" then error_value "No API key provided"
  else
    match upstream w (request_url w) with
    | Failed m => error_value m
    | Responded r =>
        if status_code r =? 200 then
          match json r with
          | inr v => v
          | inl m => error_value m
          end
        else error_value ("API request failed with status code " +:+
                          Str.of_int (status_code r))
    end.



(** [fields] plus a field [url] (section 4.4). *)
Definition with_url (url : string) (fields : list (string * pyval)) : pyval :=
  PyDict (("url", PyStr url) :: fields).


Definition lacks_url (v : pyval) : bool :=
  match v with PyDict d => negb (Dict.contains d "url") | _ => false end.

Definition extend (kv : string * pyval) : pyval :=
  match snd kv with
  | PyDict d => with_url (fst kv) d
  | v => v
  end.

(** What the configuration file, read whole, amounts to: the four
    sections, or the error [configparser] reports. *)
Definition read_section (p : ConfigParser.parser) (name : string)
  : ConfigParser.error + section :=
  if ConfigParser.contains p name then ConfigParser.section_dict p name else inr [].

Record sections : Type := {
  Settings : section; Apps : section; Links : section; Socials : section
}.

Definition no_sections : sections :=
  {| Settings := []; Apps := []; Links := []; Socials := [] |}.

Definition parse_ini (text : string) : ConfigParser.error + sections :=
  match ConfigParser.read_text text with
  | inl e => inl e
  | inr p =>
      match read_section p "AppSettings", read_section p "Apps",
            read_section p "Links", read_section p "Socials" with
      | inr s, inr a, inr l, inr so =>
          inr {| Settings := s; Apps := a; Links := l; Socials := so |}
      | inl e, _, _, _ | _, inl e, _, _ | _, _, inl e, _ | _, _, _, inl e => inl e
      end
  end.

Definition ini_sections (w : World) : ConfigParser.error + sections :=
  match fs w !! INI_FILE with
  | None => inr no_sections
  | Some f => parse_ini (content f)
  end.

End Spec.

(** ** Auxiliary notions for the proofs about [json] *)
Module JsonAux.
Import Json.

(** Characters that may follow a value in the encoder's output. *)
Definition is_delim (c : ascii) : bool :=
  Ascii.eqb c "," || Ascii.eqb c "]" || Ascii.eqb c "}".

Definition delim_start (s : string) : bool :=
  match s with
  | EmptyString => true
  | String c _ => is_delim c
  end.

Definition no_delim (p : string) : bool :=
  forallb (fun c => negb (is_delim c)) (list_ascii_of_string p).

Definition starts_value (s : string) : bool :=
  match s with
  | String c _ => negb (is_ws c) && negb (Ascii.eqb c "]")
  | EmptyString => false
  end.

Fixpoint cost (v : pyval) : nat :=
  match v with
  | PyList l =>
      S ((fix go (l : list pyval) : nat :=
            match l with [] => O | x :: l' => S (cost x + go l') end) l)
  | PyDict d =>
      S ((fix go (d : list (string * pyval)) : nat :=
            match d with [] => O | kv :: d' => S (cost (snd kv) + go d') end) d)
  | _ => 1
  end.

Definition cost_items : list pyval -> nat :=
  fix go (l : list pyval) : nat :=
    match l with [] => O | x :: l' => S (cost x + go l') end.

Definition cost_members : list (string * pyval) -> nat :=
  fix go (d : list (string * pyval)) : nat :=
    match d with [] => O | kv :: d' => S (cost (snd kv) + go d') end.

(** What the round trip states of one value. *)
Definition reads_back (v : pyval) : Prop :=
  well_formed v = true ->
  forall fuel rest,
    (cost v <= fuel)%nat -> delim_start rest = true ->
    scan_once fuel (dumps v +:+ rest) = Some (v, rest).

Definition set_all (acc d : list (string * pyval)) : list (string * pyval) :=
  fold_left (fun a kv => Dict.set a (fst kv) (snd kv)) d acc.

Definition cost_bounded (v : pyval) : Prop :=
  well_formed v = true -> (cost v <= 2 * String.length (dumps v))%nat.

End JsonAux.

(** ** Worlds and responses the theorems speak of *)

(** Whether a request for the weather has to fetch: the cache is missing
    or stale. *)
Definition must_fetch (w : World) : bool :=
  match Spec.weather_cache w with Spec.FRESH => false | _ => true end.

(** The world after the opening message of the weather pipeline, and after
    the fetch. *)
Definition announced (w : World) : World :=
  set_stdout (stdout w ++ ["Getting weather data..."])%list w.

Definition fetched (w : World) : World :=
  if String.eqb (Spec.api_key w) "" then announced w
  else set_requests_sent (requests_sent w ++ [Spec.request_url w])%list (announced w).

(** The world after the weather file has been replaced by [text]. *)
Definition cache_written (text : string) (w : World) : World :=
  set_stdout (stdout w ++ ["Weather data downloaded!"])%list
    (set_fs (<[weather_path w := {| content := text; mtime := clock w |}]> (fs w)) w).

(** The world after [load_ini] has stored the four sections. *)
Definition configured (s : Spec.sections) (w : World) : World :=
  set_json_files
    (Some (Dict.get_default (Spec.Settings s) "YoutubeJSON" "youtube_data.json"))
    (Some (Dict.get_default (Spec.Settings s) "WeatherJSON" "weather_data.json"))
    (set_config
       (<["Socials" := Spec.Socials s]>
          (<["Links" := Spec.Links s]>
             (<["Apps" := Spec.Apps s]>
                (<["Settings" := Spec.Settings s]> (config w))))) w).



(** The responses of the routes. *)
Definition weather_response (data : pyval) : HttpResponse :=
  {| status := 200; payload := Text (Json.dumps data) "application/json" |}.

Definition empty_object (code : Z) : HttpResponse :=
  {| status := code; payload := Jsonified (PyDict []) |}.

Definition reloaded : HttpResponse :=
  {| status := 200; payload := Jsonified (PyDict [("status", PyStr "reloaded")]) |}.

Definition launched : HttpResponse :=
  {| status := 200; payload := Jsonified (PyDict [("status", PyStr "ok")]) |}.

Definition failed_with (code : Z) (message : string) : HttpResponse :=
  {| status := code; payload := Jsonified (error_value message) |}.

Definition apps_of (w : World) : section := default [] (config w !! "Apps").

Definition NUL : string := String zero "".

(** ** The configuration as an invariant of the running server

    [main] loads the configuration before the first request, and no
    handler leaves the three globals unset: the worlds in which requests
    are served are the [running] ones.  Between two requests the
    environment (files, clock, upstream API) may change freely; the
    globals of the process do not. *)

(** A computation that leaves the configuration loaded. *)
Definition keeps_loaded {A} (m : Py A) : Prop :=
  forall w, loaded w -> loaded (snd (m w)).

(** The process globals of two worlds agree. *)
Definition same_globals (w w' : World) : Prop :=
  config w' = config w /\
  JSON_FILE_YOUTUBE w' = JSON_FILE_YOUTUBE w /\
  JSON_FILE_WEATHER w' = JSON_FILE_WEATHER w.

(** Worlds the server handles requests in: after [main] has reached
    [app.run], after a request, after a change of the environment. *)
Inductive running : World -> Prop :=
| started w a w' : main w = (Return a, w') -> running w'
| served r w : running w -> running (snd (serve r w))
| moved w w' : running w -> same_globals w w' -> running w'.

(** ** What a computation leaves alone *)

(** A computation that leaves the component [f] of the world as it was,
    whatever it returns or raises. *)
Definition leaves {A X} (f : World -> X) (m : Py A) : Prop :=
  forall w, f (snd (m w)) = f w.

(** The module globals; the files together with the requests sent. *)
Definition globals (w : World) : gmap string section * option string * option string :=
  (config w, JSON_FILE_YOUTUBE w, JSON_FILE_WEATHER w).

Definition traffic (w : World) : gmap string file * list string :=
  (fs w, requests_sent w).

(** ** [load_ini] by cases *)

(** The world in which [load_ini] has stored the sections [l] and then
    stopped: the two file names are not set again. *)
Definition stored (l : list (string * section)) (w : World) : World :=
  set_config (fold_left (fun c kv => <[fst kv := snd kv]> c) l (config w)) w.

(** What [load_ini] does, by cases on the file: every section is converted
    and stored before the next one is looked at. *)
Definition load_ini_outcome (w : World) : outcome unit * World :=
  match fs w !! INI_FILE with
  | None => (Return tt, configured Spec.no_sections w)
  | Some f =>
      match ConfigParser.read_text (content f) with
      | inl e => (Raise (ConfigError e), w)
      | inr p =>
          match Spec.read_section p "AppSettings" with
          | inl e => (Raise (ConfigError e), w)
          | inr s =>
              match Spec.read_section p "Apps" with
              | inl e => (Raise (ConfigError e), stored [("Settings", s)] w)
              | inr a =>
                  match Spec.read_section p "Links" with
                  | inl e =>
                      (Raise (ConfigError e), stored [("Settings", s); ("Apps", a)] w)
                  | inr l =>
                      match Spec.read_section p "Socials" with
                      | inl e =>
                          (Raise (ConfigError e),
                           stored [("Settings", s); ("Apps", a); ("Links", l)] w)
                      | inr so =>
                          (Return tt,
                           configured {| Spec.Settings := s; Spec.Apps := a;
                                         Spec.Links := l; Spec.Socials := so |} w)
                      end
                  end
              end
          end
      end
  end.

(** ** Snapshots and integer settings *)

(** The text [get_youtube] can turn into a list: a JSON object whose
    values are objects without a member [url]. *)
Definition snapshot_accepted (text : string) : bool :=
  match Json.loads text with
  | Some (PyDict items) => forallb (fun kv => Spec.lacks_url (snd kv)) items
  | _ => false
  end.



(** ** The module before [load_ini], and what the cache is made to hold *)

(** The module as it is imported: [config] empty, no file name set.  Only
    the [__main__] block and a reload call [load_ini]. *)
Definition imported (w : World) : Prop :=
  config w = ∅ /\ JSON_FILE_YOUTUBE w = None /\ JSON_FILE_WEATHER w = None.


(** ** Configuration files in plain form

    The files a user writes by hand: a header line [[name]] for each
    section, followed by one line [key = value] for each option.  The
    predicates say which names, keys and values such a line can carry
    without meaning something else to [configparser]. *)
Module Ini.

Definition is_newline (c : ascii) : bool := Ascii.eqb c "010" || Ascii.eqb c "013".

Fixpoint all (p : ascii -> bool) (s : string) : bool :=
  match s with
  | EmptyString => true
  | String c t => p c && all p t
  end.

Definition starts_with (p : ascii -> bool) (s : string) : bool :=
  match s with
  | String c _ => p c
  | EmptyString => false
  end.

Fixpoint ends_with (p : ascii -> bool) (s : string) : bool :=
  match s with
  | EmptyString => false
  | String c EmptyString => p c
  | String _ t => ends_with p t
  end.

Definition one_line (s : string) : bool := all (fun c => negb (is_newline c)) s.

(** An ASCII character that is not whitespace. *)
Definition solid (c : ascii) : bool := (Str.code c <? 128)%N && negb (Str.is_space c).

Definition opens_line (c : ascii) : bool :=
  solid c && negb (Ascii.eqb c "#") && negb (Ascii.eqb c ";") && negb (Ascii.eqb c "[").

Definition plain_key (k : string) : bool :=
  starts_with opens_line k && ends_with solid k && one_line k &&
  all (fun c => negb (ConfigParser.is_delimiter c)) k.

Definition plain_value (v : string) : bool :=
  one_line v && all (fun c => negb (Ascii.eqb c "%")) v &&
  match v with
  | EmptyString => true
  | _ => starts_with solid v && ends_with solid v
  end.

Definition plain_name (n : string) : bool :=
  negb (String.eqb n "") && negb (String.eqb n ConfigParser.default_section) &&
  one_line n.

Fixpoint distinct (l : list string) : bool :=
  match l with
  | [] => true
  | x :: l' => negb (existsb (String.eqb x) l') && distinct l'
  end.

Definition plain_section (s : string * section) : bool :=
  plain_name (fst s) &&
  forallb (fun kv => plain_key (fst kv) && plain_value (snd kv)) (snd s) &&
  distinct (map fst (snd s)).

Definition plain (secs : list (string * section)) : bool :=
  forallb plain_section secs && distinct (map fst secs).

Definition header (name : string) : string := "[" +:+ name +:+ "]".

Definition option_line (kv : string * string) : string := fst kv +:+ " = " +:+ snd kv.

Definition section_lines (s : string * section) : list string :=
  header (fst s) :: map option_line (snd s).

Definition file_lines (secs : list (string * section)) : list string :=
  flat_map section_lines secs.

(** Every line ends with a line feed. *)
Definition text_of (l : list string) : string :=
  fold_right (fun line t => line +:+ String "010" t) "" l.

Definition text (secs : list (string * section)) : string := text_of (file_lines secs).

(** The four sections of the program, as the file gives them. *)
Definition sections_of (secs : list (string * section)) : Spec.sections :=
  {| Spec.Settings := Dict.get_default secs "AppSettings" [];
     Spec.Apps := Dict.get_default secs "Apps" [];
     Spec.Links := Dict.get_default secs "Links" [];
     Spec.Socials := Dict.get_default secs "Socials" [] |}.

(** An option as the parser holds it while reading: the lines of its
    value. *)
Definition raw (s : string * section) : string * ConfigParser.options :=
  (fst s, map (fun kv => (fst kv, [snd kv])) (snd s)).

(** What the reader has done when the sections [secs] have been read, and
    nothing else. *)
Definition read_so_far (st : ConfigParser.state) (secs : list (string * section)) : Prop :=
  ConfigParser.sections st = map raw secs /\
  ConfigParser.defaults st = [] /\
  ConfigParser.pending st = false /\
  forall n k, ConfigParser.added st (n, Some k) = true ->
              exists d, In (n, d) secs /\ In k (map fst d).

(** What is left of the value side of an option line once the line is
    stripped. *)
Definition value_side (v : string) : string :=
  match v with
  | EmptyString => ""
  | _ => " " +:+ v
  end.

End Ini.

(** ** Example worlds *)

Definition example_config : gmap string section :=
  <["Settings" := [("WeatherAPIKey", "k"); ("DataRenewalInterval", "6")]]>
    (<["Apps" := [("ghost", "/no/such/path")]]>
       (<["Links" := []]> (<["Socials" := [("a", "b")]]> ∅))).

(** A running server: configuration loaded, a working shell, nothing done
    yet. *)
Definition example_world (files : gmap string file) (now : Z)
           (api : string -> get_outcome) : World :=
  {| fs := files; clock := now; upstream := api; shell_failure := None;
     config := example_config;
     JSON_FILE_YOUTUBE := Some "youtube_data.json";
     JSON_FILE_WEATHER := Some "weather_data.json";
     requests_sent := []; processes := []; stdout := [] |}.

(** A process that has not loaded its configuration yet. *)
Definition boot_world (files : gmap string file) : World :=
  {| fs := files; clock := 0; upstream := fun _ => Failed "unreachable";
     shell_failure := None; config := ∅;
     JSON_FILE_YOUTUBE := None; JSON_FILE_WEATHER := None;
     requests_sent := []; processes := []; stdout := [] |}.

Definition api_replies (code : Z) (body : string + pyval) : string -> get_outcome :=
  fun _ => Responded {| status_code := code; json := body |}.

Definition api_down : string -> get_outcome := fun _ => Failed "connection refused".

(** A weather payload with a city name outside ASCII. *)
Definition lodz : pyval :=
  PyDict [("name", PyStr "Łódź"); ("main", PyDict [("temp", PyFloat "12.3")])].


(** The cache file, written at time 0. *)
Definition cached (text : string) : gmap string file :=
  {[ "weather_data.json" := {| content := text; mtime := 0 |} ]}.



Definition youtube_file (v : pyval) : gmap string file :=
  {[ "youtube_data.json" := {| content := Json.dumps v; mtime := 0 |} ]}.

Definition ini_file (text : string) : gmap string file :=
  {[ "config.ini" := {| content := text; mtime := 0 |} ]}.


(** The text of a file, from its lines. *)
Definition lines (l : list string) : string := Str.join (String "010" "") l.

(** A configuration whose [Apps] section has a percent sign that starts no
    interpolation, and one with an option in [DEFAULT]. *)
Definition half_bad_ini : string :=
  lines ["[AppSettings]"; "WeatherJSON = new.json"; "[Apps]"; "x = %"].


(** A configuration in plain form. *)
Definition plain_example : list (string * section) :=
  [("AppSettings", [("WeatherAPIKey", "k"); ("Port", "8080"); ("HomePage", "")]);
   ("Socials", [("a", "b")])].

(** A snapshot of two records. *)
Definition two_videos : pyval :=
  PyDict [("http://x", PyDict [("title", PyStr "Łódź")]);
          ("http://y", PyDict [("views", PyInt 12)])].

(** * Proofs *)

(** ** The induction principle of [pyval], with hypotheses for the nested
    lists *)
Lemma pyval_ind' (P : pyval -> Prop) :
  P PyNone ->
  (forall b, P (PyBool b)) ->
  (forall n, P (PyInt n)) ->
  (forall r, P (PyFloat r)) ->
  (forall s, P (PyStr s)) ->
  (forall l, Forall P l -> P (PyList l)) ->
  (forall d, Forall (fun kv => P (snd kv)) d -> P (PyDict d)) ->
  forall v, P v.
Proof.
  intros HN HB HI HF HS HL HD.
  fix IH 1. intros [ | b | n | r | s | l | d ].
  - exact HN.
  - apply HB.
  - apply HI.
  - apply HF.
  - apply HS.
  - apply HL. induction l as [ | x l IHl ]; constructor; [ apply IH | exact IHl ].
  - apply HD. induction d as [ | kv d IHd ]; constructor; [ apply IH | exact IHd ].
Qed.

Module JsonFacts.
Import Json JsonAux.

#[local] Arguments append !_ _ / : simpl nomatch.

Lemma sapp_assoc (a b c : string) : (a +:+ b) +:+ c = a +:+ (b +:+ c).
Proof. induction a as [ | x a IH ]; simpl; [ reflexivity | now rewrite IH ]. Qed.

Lemma sapp_nil_r (a : string) : a +:+ "" = a.
Proof. induction a as [ | x a IH ]; simpl; [ reflexivity | now rewrite IH ]. Qed.

Lemma slength_app (a b : string) :
  String.length (a +:+ b) = (String.length a + String.length b)%nat.
Proof. induction a as [ | x a IH ]; simpl; [ reflexivity | now rewrite IH ]. Qed.

Lemma scanstring_escape_char c t :
  scanstring (escape_char c +:+ t) = prepend (String c "") (scanstring t).
Proof.
  destruct c as [[] [] [] [] [] [] [] []]; reflexivity.
Qed.

Lemma scanstring_escape s r :
  scanstring (escape s +:+ String dquote r) = Some (s, r).
Proof.
  induction s as [ | c s IH ]; simpl.
  - reflexivity.
  - rewrite sapp_assoc, scanstring_escape_char, IH. reflexivity.
Qed.

Lemma is_delim_cases c :
  is_delim c = true -> c = ","%char \/ c = "]"%char \/ c = "}"%char.
Proof.
  unfold is_delim. rewrite !orb_true_iff, !Ascii.eqb_eq. tauto.
Qed.

(** Facts true of each of the three delimiters. *)
Ltac by_delim H :=
  apply is_delim_cases in H; destruct H as [-> | [-> | ->]]; reflexivity.

Lemma delim_not_digit c : is_delim c = true -> is_digit c = false.
Proof. intros H. by_delim H. Qed.

Lemma span_digits_ext s rest :
  delim_start rest = true ->
  span_digits (s +:+ rest) = (fst (span_digits s), snd (span_digits s) +:+ rest).
Proof.
  intros Hd. induction s as [ | c s IH ]; simpl.
  - destruct rest as [ | d rest ]; simpl in *; [ reflexivity | ].
    now rewrite (delim_not_digit d).
  - destruct (is_digit c); [ | reflexivity ].
    rewrite IH. now destruct (span_digits s).
Qed.

Lemma match_unsigned_ext s rest :
  delim_start rest = true ->
  match_unsigned (s +:+ rest) =
    match match_unsigned s with
    | Some (i, r) => Some (i, r +:+ rest)
    | None => None
    end.
Proof.
  intros Hd. destruct s as [ | c s ]; simpl.
  - destruct rest as [ | d rest ]; simpl in *; [ reflexivity | ].
    apply is_delim_cases in Hd. now destruct Hd as [-> | [-> | ->]].
  - destruct (Ascii.eqb c "0"); [ reflexivity | ].
    destruct (is_digit c); [ | reflexivity ].
    rewrite span_digits_ext by assumption. now destruct (span_digits s).
Qed.

Lemma match_integer_ext s rest :
  delim_start rest = true ->
  match_integer (s +:+ rest) =
    match match_integer s with
    | Some (i, r) => Some (i, r +:+ rest)
    | None => None
    end.
Proof.
  intros Hd. destruct s as [ | c s ].
  - destruct rest as [ | d rest ]; simpl in *; [ reflexivity | ].
    apply is_delim_cases in Hd. now destruct Hd as [-> | [-> | ->]].
  - change (String c s +:+ rest) with (String c (s +:+ rest)).
    unfold match_integer. destruct (Ascii.eqb c "-").
    + rewrite match_unsigned_ext by assumption.
      now destruct (match_unsigned s) as [ [i r] | ].
    + now rewrite <- (match_unsigned_ext (String c s)).
Qed.

Lemma match_frac_ext s rest :
  delim_start rest = true ->
  match_frac (s +:+ rest) = (fst (match_frac s), snd (match_frac s) +:+ rest).
Proof.
  intros Hd. destruct s as [ | c s ]; simpl.
  - destruct rest as [ | d rest ]; simpl in *; [ reflexivity | ].
    apply is_delim_cases in Hd. now destruct Hd as [-> | [-> | ->]].
  - destruct (Ascii.eqb c "."); [ | reflexivity ].
    rewrite span_digits_ext by assumption.
    now destruct (span_digits s) as [ [ | x d ] r ].
Qed.

Lemma match_sign_ext s rest :
  delim_start rest = true ->
  match_sign (s +:+ rest) = (fst (match_sign s), snd (match_sign s) +:+ rest).
Proof.
  intros Hd. destruct s as [ | c s ]; simpl.
  - destruct rest as [ | d rest ]; simpl in *; [ reflexivity | ].
    apply is_delim_cases in Hd. now destruct Hd as [-> | [-> | ->]].
  - now destruct (Ascii.eqb c "+" || Ascii.eqb c "-").
Qed.

Lemma match_exp_ext s rest :
  delim_start rest = true ->
  match_exp (s +:+ rest) = (fst (match_exp s), snd (match_exp s) +:+ rest).
Proof.
  intros Hd. destruct s as [ | c s ]; simpl.
  - destruct rest as [ | d rest ]; simpl in *; [ reflexivity | ].
    apply is_delim_cases in Hd. now destruct Hd as [-> | [-> | ->]].
  - destruct (Ascii.eqb c "e" || Ascii.eqb c "E"); [ | reflexivity ].
    rewrite match_sign_ext by assumption.
    destruct (match_sign s) as [sg t1]; simpl.
    rewrite span_digits_ext by assumption.
    now destruct (span_digits t1) as [ [ | x d ] r ].
Qed.

Lemma match_number_ext s rest :
  delim_start rest = true ->
  match_number (s +:+ rest) =
    match match_number s with
    | Some (v, r) => Some (v, r +:+ rest)
    | None => None
    end.
Proof.
  intros Hd. unfold match_number.
  rewrite match_integer_ext by assumption.
  destruct (match_integer s) as [ [i r0] | ]; [ | reflexivity ].
  rewrite match_frac_ext by assumption.
  destruct (match_frac r0) as [fr r1]; simpl.
  rewrite match_exp_ext by assumption.
  destruct (match_exp r1) as [ex r2]; simpl.
  destruct fr, ex; try reflexivity.
  now destruct (NilEmpty.int_of_string i).
Qed.

Lemma strip_prefix_ext p s rest :
  no_delim p = true -> delim_start rest = true ->
  strip_prefix p (s +:+ rest) =
    match strip_prefix p s with
    | Some r => Some (r +:+ rest)
    | None => None
    end.
Proof.
  intros Hp Hd. revert s. induction p as [ | a p IH ]; intros s.
  - reflexivity.
  - unfold no_delim in Hp. simpl in Hp. apply andb_true_iff in Hp as [Ha Hp].
    destruct s as [ | b s ]; simpl.
    + destruct rest as [ | d rest ]; simpl in *; [ reflexivity | ].
      destruct (Ascii.eqb_spec a d) as [-> | ]; [ | reflexivity ].
      now rewrite Hd in Ha.
    + destruct (Ascii.eqb a b); [ now apply IH | reflexivity ].
Qed.

Lemma scan_constant_ext s rest :
  delim_start rest = true ->
  scan_constant (s +:+ rest) =
    match scan_constant s with
    | Some (v, r) => Some (v, r +:+ rest)
    | None => None
    end.
Proof.
  intros Hd. unfold scan_constant.
  rewrite !strip_prefix_ext, match_number_ext by (assumption || reflexivity).
  repeat
    (match goal with
     | |- context [ match strip_prefix ?p s with _ => _ end ] =>
         destruct (strip_prefix p s)
     | |- context [ match match_number s with _ => _ end ] =>
         destruct (match_number s) as [ [? ?] | ]
     end; try reflexivity).
Qed.

(** *** Integers: [int(str(n)) = n] through the scanner *)

Lemma span_digits_uint u :
  span_digits (NilEmpty.string_of_uint u) = (NilEmpty.string_of_uint u, "").
Proof. induction u; simpl; try rewrite IHu; reflexivity. Qed.

Lemma to_uint_no_leading_zero p u : Pos.to_uint p <> Decimal.D0 u.
Proof.
  intros E.
  assert (Hn : Decimal.unorm (Pos.to_uint p) = Pos.to_uint p).
  { rewrite <- DecimalPos.Unsigned.to_of, DecimalPos.Unsigned.of_to. reflexivity. }
  rewrite E, unorm_D0 in Hn.
  destruct (Decimal.nzhead u) eqn:Hz.
  1: { unfold Decimal.unorm in Hn. rewrite Hz in Hn. injection Hn as <-.
       exact (DecimalPos.Unsigned.to_uint_nonzero p E). }
  all: rewrite unorm_nzhead in Hn by (rewrite Hz; discriminate);
    exact (nzhead_nonzero _ _ Hn).
Qed.

Lemma match_unsigned_uint u :
  u <> Decimal.Nil -> (forall u', u <> Decimal.D0 u') ->
  match_unsigned (NilEmpty.string_of_uint u) = Some (NilEmpty.string_of_uint u, "").
Proof.
  intros Hnil Hz.
  destruct u; try (exfalso; apply Hnil; reflexivity);
    try (exfalso; eapply Hz; reflexivity);
    simpl; rewrite span_digits_uint; reflexivity.
Qed.

Lemma scan_constant_signed (d : Decimal.signed_int) :
  Decimal.abs d <> Decimal.Nil -> (forall u', Decimal.abs d <> Decimal.D0 u') ->
  scan_constant (NilEmpty.string_of_int d) = Some (PyInt (Z.of_int d), "").
Proof.
  intros Hnil Hz.
  pose proof (NilEmpty.isi d) as Hisi.
  pose proof (match_unsigned_uint _ Hnil Hz) as Hm.
  destruct d as [u | u]; cbn [Decimal.abs NilEmpty.string_of_int] in *.
  - destruct u; try (exfalso; apply Hnil; reflexivity);
      try (exfalso; eapply Hz; reflexivity);
      cbn [NilEmpty.string_of_uint] in Hm, Hisi |- *;
      unfold scan_constant, match_number, match_integer;
      cbn [strip_prefix Ascii.eqb Bool.eqb];
      rewrite Hm; cbn [match_frac match_exp];
      rewrite Hisi; reflexivity.
  - unfold scan_constant, match_number, match_integer.
    cbn [strip_prefix Ascii.eqb Bool.eqb].
    rewrite Hm. cbn [match_frac match_exp].
    rewrite Hisi. reflexivity.
Qed.

Lemma scan_constant_int n : scan_constant (int_repr n) = Some (PyInt n, "").
Proof.
  unfold int_repr. destruct n as [ | p | p ]; [ reflexivity | | ].
  - rewrite scan_constant_signed, DecimalZ.of_to; [ reflexivity | | ].
    + apply DecimalPos.Unsigned.to_uint_nonnil.
    + apply to_uint_no_leading_zero.
  - rewrite scan_constant_signed, DecimalZ.of_to; [ reflexivity | | ].
    + apply DecimalPos.Unsigned.to_uint_nonnil.
    + apply to_uint_no_leading_zero.
Qed.

(** *** Values *)

Lemma skip_ws_value s : starts_value s = true -> skip_ws s = s.
Proof.
  destruct s as [ | c s ]; [ reflexivity | ]. simpl.
  intros H. apply andb_true_iff in H as [H _].
  now destruct (is_ws c).
Qed.

Lemma starts_value_not_close s :
  starts_value s = true ->
  exists c t, s = String c t /\ Ascii.eqb c "]" = false.
Proof.
  destruct s as [ | c s ]; [ discriminate | ]. simpl.
  intros H. apply andb_true_iff in H as [_ H].
  exists c, s. split; [ reflexivity | now destruct (Ascii.eqb c "]") ].
Qed.

Lemma scan_constant_starts s x rest :
  scan_constant s = Some x -> starts_value (s +:+ rest) = true.
Proof.
  destruct s as [ | c s ]; [ discriminate | ]. intros H. simpl.
  destruct (is_ws c) eqn:Hw.
  - unfold is_ws in Hw. rewrite !orb_true_iff, !Ascii.eqb_eq in Hw.
    destruct Hw as [[[-> | ->] | ->] | ->]; discriminate H.
  - destruct (Ascii.eqb_spec c "]") as [-> | ]; [ discriminate H | reflexivity ].
Qed.

Lemma scan_once_constant n s v rest :
  scan_constant s = Some (v, "") -> delim_start rest = true ->
  scan_once (S n) (s +:+ rest) = Some (v, rest).
Proof.
  intros H Hd.
  pose proof (scan_constant_ext s rest Hd) as He. rewrite H in He.
  destruct s as [ | c s ]; [ discriminate | ].
  change (String c s +:+ rest) with (String c (s +:+ rest)) in *.
  cbn [scan_once].
  destruct (Ascii.eqb_spec c dquote) as [-> | ]; [ discriminate H | ].
  destruct (Ascii.eqb_spec c "{") as [-> | ]; [ discriminate H | ].
  destruct (Ascii.eqb_spec c "[") as [-> | ]; [ discriminate H | ].
  exact He.
Qed.

Lemma dumps_starts v rest :
  well_formed v = true -> starts_value (dumps v +:+ rest) = true.
Proof.
  destruct v as [ | [ | ] | n | lit | s | l | d ]; intros Hwf; try reflexivity.
  - eapply scan_constant_starts, scan_constant_int.
  - simpl in Hwf. unfold is_float_literal in Hwf.
    destruct (scan_constant lit) eqn:E; [ | discriminate ].
    eapply scan_constant_starts, E.
Qed.

Lemma items_starts x l rest :
  well_formed x = true ->
  starts_value (join_items dumps (x :: l) +:+ rest) = true.
Proof.
  intros Hx. destruct l as [ | y l ]; cbn [join_items].
  - now apply dumps_starts.
  - rewrite sapp_assoc. now apply dumps_starts.
Qed.

Lemma JSONArray_items l :
  Forall reads_back l -> forallb well_formed l = true -> l <> [] ->
  forall fuel rest,
    (cost_items l <= fuel)%nat ->
    JSONArray fuel (join_items dumps l +:+ String "]" rest) = Some (l, rest).
Proof.
  induction 1 as [ | x l Hx Hl IH ]; [ congruence | ].
  intros Hwf _ fuel rest Hfuel.
  cbn [forallb] in Hwf. apply andb_true_iff in Hwf as [Hwx Hwl].
  cbn [cost_items] in Hfuel. fold cost_items in Hfuel.
  destruct fuel as [ | n ]; [ lia | ].
  destruct l as [ | y l ].
  - cbn [join_items JSONArray].
    rewrite (Hx Hwx) by (reflexivity || lia). reflexivity.
  - change (join_items dumps (x :: y :: l))
      with (dumps x +:+ ", " +:+ join_items dumps (y :: l)).
    rewrite !sapp_assoc. cbn [JSONArray].
    rewrite (Hx Hwx) by (reflexivity || lia).
    cbn [append skip_ws is_ws Ascii.eqb Bool.eqb orb].
    cbn [forallb] in Hwl. pose proof Hwl as Hwl'.
    apply andb_true_iff in Hwl' as [Hwy _].
    rewrite skip_ws_value by now apply items_starts.
    rewrite IH by (assumption || discriminate || lia). reflexivity.
Qed.

Lemma members_quote k x d rest :
  exists t, join_members dumps ((k, x) :: d) +:+ rest = String dquote t.
Proof. destruct d as [ | [k' y] d ]; eexists; reflexivity. Qed.

Lemma JSONObject_members d :
  Forall (fun kv => reads_back (snd kv)) d ->
  forallb (fun kv => well_formed (snd kv)) d = true -> d <> [] ->
  forall fuel rest acc t,
    (cost_members d <= fuel)%nat ->
    join_members dumps d +:+ String "}" rest = String dquote t ->
    JSONObject fuel t acc = Some (set_all acc d, rest).
Proof.
  induction 1 as [ | [k x] d Hx Hd IH ]; [ congruence | ].
  intros Hwf _ fuel rest acc t Hfuel Ht.
  cbn [forallb snd] in Hwf. apply andb_true_iff in Hwf as [Hwx Hwd].
  cbn [cost_members snd] in Hfuel. fold cost_members in Hfuel.
  cbn [snd] in Hx.
  destruct fuel as [ | n ]; [ lia | ].
  destruct d as [ | [k' y] d ].
  - cbn [join_members] in Ht. unfold encode_basestring, quoted in Ht.
    rewrite !sapp_assoc in Ht. cbn [append] in Ht.
    injection Ht as <-. rewrite !sapp_assoc. cbn [append].
    cbn [JSONObject]. rewrite scanstring_escape.
    cbn [skip_ws is_ws Ascii.eqb Bool.eqb orb].
    rewrite skip_ws_value by now apply dumps_starts.
    rewrite (Hx Hwx) by (reflexivity || lia). reflexivity.
  - destruct (members_quote k' y d (String "}" rest)) as [t' Ht'].
    change (join_members dumps ((k, x) :: (k', y) :: d))
      with (encode_basestring k +:+ ": " +:+ dumps x +:+ ", "
            +:+ join_members dumps ((k', y) :: d)) in Ht.
    remember (join_members dumps ((k', y) :: d)) as m eqn:Em.
    unfold encode_basestring, quoted in Ht.
    rewrite !sapp_assoc in Ht. cbn [append] in Ht.
    injection Ht as <-. rewrite !sapp_assoc. cbn [append].
    cbn [JSONObject]. rewrite scanstring_escape.
    cbn [skip_ws is_ws Ascii.eqb Bool.eqb orb].
    rewrite skip_ws_value by now apply dumps_starts.
    rewrite (Hx Hwx) by (reflexivity || lia).
    cbn [skip_ws is_ws Ascii.eqb Bool.eqb orb].
    rewrite Ht'.
    replace (skip_ws (String dquote t')) with (String dquote t') by reflexivity.
    rewrite Ascii.eqb_refl. subst m.
    rewrite (IH Hwd) with (rest := rest) by (assumption || discriminate || lia).
    reflexivity.
Qed.

Lemma set_fresh (acc : list (string * pyval)) k v :
  ~ In k (map fst acc) -> Dict.set acc k v = (acc ++ [(k, v)])%list.
Proof.
  induction acc as [ | [k' v'] acc IH ]; simpl; intros Hk; [ reflexivity | ].
  destruct (String.eqb_spec k' k) as [-> | ]; [ tauto | ].
  rewrite IH by tauto. reflexivity.
Qed.

Lemma unique_keys_NoDup ks : unique_keys ks = true -> NoDup ks.
Proof.
  induction ks as [ | k ks IH ]; simpl; intros H; constructor.
  - apply andb_true_iff in H as [H _]. apply negb_true_iff in H.
    intros Hin. apply list_elem_of_In in Hin.
    assert (existsb (String.eqb k) ks = true) as E; [ | congruence ].
    apply existsb_exists. exists k. split; [ assumption | apply String.eqb_refl ].
  - apply IH. now apply andb_true_iff in H as [_ H].
Qed.

Lemma set_all_fresh d : forall acc,
  NoDup (map fst d) ->
  (forall k, In k (map fst d) -> ~ In k (map fst acc)) ->
  set_all acc d = (acc ++ d)%list.
Proof.
  induction d as [ | [k v] d IH ]; intros acc Hnd Hdis; simpl.
  - now rewrite app_nil_r.
  - simpl in Hnd. apply NoDup_cons in Hnd as [Hk Hnd].
    unfold set_all in *. simpl.
    rewrite set_fresh by (apply Hdis; now left).
    rewrite IH; [ now rewrite <- app_assoc | assumption | ].
    intros k' Hk'. rewrite map_app, in_app_iff. simpl.
    intros [Hin | [<- | []]].
    + apply (Hdis k'); [ now right | assumption ].
    + apply Hk. now apply list_elem_of_In.
Qed.

Theorem scan_once_dumps v : reads_back v.
Proof.
  induction v as [ | b | n | lit | s | l IH | d IH ] using pyval_ind';
    intros Hwf fuel rest Hfuel Hd;
    (destruct fuel as [ | fuel ]; [ simpl in Hfuel; lia | ]).
  - now apply scan_once_constant.
  - destruct b; now apply scan_once_constant.
  - apply scan_once_constant; [ apply scan_constant_int | assumption ].
  - apply scan_once_constant; [ | assumption ].
    simpl in Hwf. unfold is_float_literal in Hwf. cbn [dumps].
    destruct (scan_constant lit) as [ [ [ | | | l' | | | ] [ | ] ] | ];
      try discriminate.
    apply String.eqb_eq in Hwf. now subst.
  - cbn [dumps]. unfold encode_basestring, quoted.
    change (String dquote (escape s +:+ String dquote "") +:+ rest)
      with (String dquote ((escape s +:+ String dquote "") +:+ rest)).
    rewrite sapp_assoc. change (String dquote "" +:+ rest) with (String dquote rest).
    cbn [scan_once]. rewrite Ascii.eqb_refl, scanstring_escape. reflexivity.
  - cbn [dumps]. rewrite !sapp_assoc.
    change ("[" +:+ join_items dumps l +:+ "]" +:+ rest)
      with (String "[" (join_items dumps l +:+ String "]" rest)).
    cbn [scan_once]. change (Ascii.eqb "[" dquote) with false.
    cbn [Ascii.eqb Bool.eqb].
    destruct l as [ | x l ]; [ reflexivity | ].
    cbn [well_formed] in Hwf. pose proof Hwf as Hwf'.
    cbn [forallb] in Hwf'. apply andb_true_iff in Hwf' as [Hwx _].
    pose proof (items_starts x l (String "]" rest) Hwx) as Hst.
    rewrite (skip_ws_value _ Hst).
    destruct (starts_value_not_close _ Hst) as (c & t & Ect & Hc).
    rewrite Ect, Hc, <- Ect.
    rewrite JSONArray_items; [ reflexivity | assumption .. | discriminate | ].
    change (cost (PyList (x :: l))) with (S (cost_items (x :: l))) in Hfuel. lia.
  - cbn [dumps]. rewrite !sapp_assoc.
    change ("{" +:+ join_members dumps d +:+ "}" +:+ rest)
      with (String "{" (join_members dumps d +:+ String "}" rest)).
    cbn [scan_once]. change (Ascii.eqb "{" dquote) with false.
    cbn [Ascii.eqb Bool.eqb].
    destruct d as [ | [k x] d ]; [ reflexivity | ].
    cbn [well_formed] in Hwf. apply andb_true_iff in Hwf as [Hu Hwf].
    destruct (members_quote k x d (String "}" rest)) as [t Ht].
    rewrite Ht. replace (skip_ws (String dquote t)) with (String dquote t) by reflexivity.
    change (Ascii.eqb dquote "}") with false. rewrite Ascii.eqb_refl.
    rewrite (JSONObject_members ((k, x) :: d)) with (rest := rest);
      [ | assumption .. | discriminate | | assumption ].
    + unfold set_all. rewrite <- (app_nil_l ((k, x) :: d)) at 2.
      fold (set_all [] ((k, x) :: d)).
      rewrite set_all_fresh; [ reflexivity | now apply unique_keys_NoDup | ].
      intros ? _ [].
    + change (cost (PyDict ((k, x) :: d)))
        with (S (cost_members ((k, x) :: d))) in Hfuel. lia.
Qed.

Lemma dumps_nonempty v :
  well_formed v = true -> (1 <= String.length (dumps v))%nat.
Proof.
  intros Hwf. pose proof (dumps_starts v "" Hwf) as H.
  rewrite sapp_nil_r in H. destruct (dumps v); [ discriminate | simpl; lia ].
Qed.

Lemma cost_items_bound l :
  Forall cost_bounded l -> forallb well_formed l = true ->
  (cost_items l <= 2 * String.length (join_items dumps l) + 1)%nat.
Proof.
  induction 1 as [ | x l Hx Hl IH ]; intros Hwf; [ simpl; lia | ].
  cbn [forallb] in Hwf. apply andb_true_iff in Hwf as [Hwx Hwl].
  specialize (Hx Hwx). specialize (IH Hwl).
  destruct l as [ | y l ].
  - cbn [join_items cost_items]. lia.
  - change (join_items dumps (x :: y :: l))
      with (dumps x +:+ ", " +:+ join_items dumps (y :: l)).
    change (cost_items (x :: y :: l)) with (S (cost x + cost_items (y :: l))).
    rewrite !slength_app. change (String.length ", ") with 2%nat. lia.
Qed.

Lemma cost_members_bound d :
  Forall (fun kv => cost_bounded (snd kv)) d ->
  forallb (fun kv => well_formed (snd kv)) d = true ->
  (cost_members d <= 2 * String.length (join_members dumps d) + 1)%nat.
Proof.
  induction 1 as [ | [k x] d Hx Hd IH ]; intros Hwf; [ simpl; lia | ].
  cbn [forallb snd] in Hwf. apply andb_true_iff in Hwf as [Hwx Hwd].
  cbn [snd] in Hx. specialize (Hx Hwx). specialize (IH Hwd).
  destruct d as [ | [k' y] d ].
  - cbn [join_members cost_members snd]. rewrite !slength_app. lia.
  - change (join_members dumps ((k, x) :: (k', y) :: d))
      with (encode_basestring k +:+ ": " +:+ dumps x +:+ ", "
            +:+ join_members dumps ((k', y) :: d)).
    change (cost_members ((k, x) :: (k', y) :: d))
      with (S (cost x + cost_members ((k', y) :: d))).
    rewrite !slength_app. change (String.length ", ") with 2%nat. lia.
Qed.

Lemma cost_bound v : cost_bounded v.
Proof.
  induction v as [ | b | n | lit | s | l IH | d IH ] using pyval_ind';
    intros Hwf;
    try (pose proof (dumps_nonempty _ Hwf); simpl cost; lia).
  - change (cost (PyList l)) with (S (cost_items l)).
    cbn [dumps]. rewrite !slength_app.
    change (String.length "[") with 1%nat. change (String.length "]") with 1%nat.
    pose proof (cost_items_bound l IH Hwf). lia.
  - change (cost (PyDict d)) with (S (cost_members d)).
    cbn [dumps]. rewrite !slength_app.
    change (String.length "{") with 1%nat. change (String.length "}") with 1%nat.
    cbn [well_formed] in Hwf. apply andb_true_iff in Hwf as [_ Hwf].
    pose proof (cost_members_bound d IH Hwf). lia.
Qed.

(** [json.loads(json.dumps(v, ensure_ascii=False)) == v] *)
Theorem loads_dumps v : well_formed v = true -> loads (dumps v) = Some v.
Proof.
  intros Hwf. unfold loads.
  pose proof (dumps_starts v "" Hwf) as Hst. rewrite sapp_nil_r in Hst.
  rewrite (skip_ws_value _ Hst).
  pose proof (scan_once_dumps v Hwf (S (2 * String.length (dumps v))) "") as H.
  rewrite sapp_nil_r in H. rewrite H; [ reflexivity | | reflexivity ].
  pose proof (cost_bound v Hwf). lia.
Qed.


End JsonFacts.

(** ** Running the program *)

Lemma bind_return {A B} (m : Py A) (k : A -> Py B) w a w' :
  m w = (Return a, w') -> bind m k w = k a w'.
Proof. unfold bind. now intros ->. Qed.

Lemma bind_raise {A B} (m : Py A) (k : A -> Py B) w e w' :
  m w = (Raise e, w') -> bind m k w = (Raise e, w').
Proof. unfold bind. now intros ->. Qed.

Lemma try_return {A} (m : Py A) handles h w a w' :
  m w = (Return a, w') -> try_except m handles h w = (Return a, w').
Proof. unfold try_except. now intros ->. Qed.

Lemma try_raise {A} (m : Py A) handles h w e w' :
  m w = (Raise e, w') ->
  try_except m handles h w = if handles e then h e w' else (Raise e, w').
Proof. unfold try_except. now intros ->. Qed.

Lemma loaded_inv w :
  loaded w ->
  exists s yp wp,
    config w !! "Settings" = Some s /\ JSON_FILE_YOUTUBE w = Some yp /\
    JSON_FILE_WEATHER w = Some wp.
Proof. intros ([s Hs] & [yp Hy] & [wp Hw]). eauto 10. Qed.

Lemma config_getitem_run w name s :
  config w !! name = Some s -> config_getitem name w = (Return s, w).
Proof. intros H. unfold config_getitem, bind, get_world. now rewrite H. Qed.

Lemma settings_of_eq w s : config w !! "Settings" = Some s -> settings_of w = s.
Proof. unfold settings_of. now intros ->. Qed.

(** The interval [file_create] computes is the specification's. *)
Lemma interval_run w s :
  config w !! "Settings" = Some s ->
  try_except
    (settings <- config_getitem "Settings" ;;
     py_int (get_or_int settings "DataRenewalInterval" 6))
    is_ValueError_or_TypeError (fun _ => ret 6) w
  = (Return (Spec.renewal_interval w), w).
Proof.
  intros Hs. unfold Spec.renewal_interval. rewrite (settings_of_eq w s Hs).
  pose proof (config_getitem_run w _ s Hs) as Hg.
  destruct (Dict.get s "DataRenewalInterval") as [v | ] eqn:Hd.
  - destruct (Str.int v) as [n | ] eqn:Hv.
    + apply try_return. rewrite (bind_return _ _ _ _ _ Hg).
      unfold get_or_int, py_int. rewrite Hd, Hv. reflexivity.
    + erewrite try_raise.
      2:{ rewrite (bind_return _ _ _ _ _ Hg).
          unfold get_or_int, py_int. rewrite Hd, Hv. reflexivity. }
      reflexivity.
  - apply try_return. rewrite (bind_return _ _ _ _ _ Hg).
    unfold get_or_int, py_int. rewrite Hd. reflexivity.
Qed.

Lemma file_create_run w s wp f :
  config w !! "Settings" = Some s -> fs w !! wp = Some f ->
  file_create (Some wp) w =
    (Return (minutes (Spec.renewal_interval w) <? age w f), w).
Proof.
  intros Hs Hf. unfold file_create.
  rewrite (bind_return _ _ _ _ _ (interval_run w s Hs)).
  unfold os_path_getmtime, fspath, datetime_now, get_world, bind, ret. rewrite Hf.
  unfold timedelta_minutes, minutes, age.
  now destruct (_ <? _).
Qed.

Lemma os_path_exists_run w wp :
  os_path_exists (Some wp) w = (Return (bool_decide (is_Some (fs w !! wp))), w).
Proof. reflexivity. Qed.

Lemma weather_path_eq w wp : JSON_FILE_WEATHER w = Some wp -> weather_path w = wp.
Proof. unfold weather_path. now intros ->. Qed.

Lemma should_update_run w :
  loaded w -> should_update_weather_file w = (Return (must_fetch w), w).
Proof.
  intros Hl. destruct (loaded_inv w Hl) as (s & yp & wp & Hs & Hy & Hw).
  unfold should_update_weather_file, must_fetch, Spec.weather_cache.
  rewrite (weather_path_eq w wp Hw).
  unfold bind at 1, get_world at 1. rewrite Hw.
  rewrite (bind_return _ _ _ _ _ (os_path_exists_run w wp)).
  destruct (fs w !! wp) as [f | ] eqn:Hf.
  - rewrite bool_decide_eq_true_2 by eauto. cbn [negb].
    rewrite (file_create_run w s wp f Hs Hf).
    destruct (_ <? _); reflexivity.
  - rewrite bool_decide_eq_false_2 by (intros [? ?]; discriminate). reflexivity.
Qed.

Lemma requests_get_run w url :
  requests_get url w =
    (match upstream w url with
     | Responded r => Return r
     | Failed m => Raise (RequestException m)
     end,
     set_requests_sent (requests_sent w ++ [url])%list w).
Proof.
  unfold requests_get, bind, modify, get_world. cbn.
  destruct (upstream w url); reflexivity.
Qed.

(** [fetch_weather_from_api] computes the result the specification lists,
    never raises, and issues at most the one GET. *)
Lemma fetch_weather_run w :
  loaded w ->
  fetch_weather_from_api w =
    (Return (Spec.fetch_result w),
     if String.eqb (Spec.api_key w) "" then w
     else set_requests_sent (requests_sent w ++ [Spec.request_url w])%list w).
Proof.
  intros Hl. destruct (loaded_inv w Hl) as (s & yp & wp & Hs & Hy & Hw).
  pose proof (config_getitem_run w _ s Hs) as Hg.
  unfold fetch_weather_from_api, Spec.fetch_result, Spec.request_url, Spec.api_key.
  rewrite (settings_of_eq w s Hs).
  rewrite (bind_return _ _ _ _ _ Hg).
  destruct (String.eqb (Dict.get_default s "WeatherAPIKey" "") ""); [ reflexivity | ].
  rewrite (bind_return _ _ _ _ _ Hg), (bind_return _ _ _ _ _ Hg).
  set (url := weather_url _ _ _).
  pose proof (requests_get_run w url) as Hr.
  destruct (upstream w url) as [r | m].
  - destruct (status_code r =? 200) eqn:Hc.
    + destruct (json r) as [m | v] eqn:Hj.
      * erewrite try_raise.
        2:{ rewrite (bind_return _ _ _ _ _ Hr), Hc. unfold response_json.
            rewrite Hj. reflexivity. }
        reflexivity.
      * apply try_return. rewrite (bind_return _ _ _ _ _ Hr), Hc.
        unfold response_json. rewrite Hj. reflexivity.
    + apply try_return. rewrite (bind_return _ _ _ _ _ Hr), Hc. reflexivity.
  - erewrite try_raise by (apply bind_raise; exact Hr). reflexivity.
Qed.

(** The membership test does not touch the world. *)
Lemma py_in_run x data w :
  py_in x data w =
    (match py_contains x data with
     | inr b => Return b
     | inl m => Raise (TypeError m)
     end, w).
Proof. unfold py_in. destruct (py_contains x data); reflexivity. Qed.

Lemma update_weather_file_run w data :
  loaded w ->
  update_weather_file data w = (Return tt, cache_written (Json.dumps data) w).
Proof.
  intros Hl. destruct (loaded_inv w Hl) as (s & yp & wp & Hs & Hy & Hw).
  unfold update_weather_file, cache_written.
  rewrite (weather_path_eq w wp Hw).
  unfold bind at 1, get_world at 1. rewrite Hw.
  rewrite (bind_return _ _ _ _ _ (os_path_exists_run w wp)).
  destruct (fs w !! wp) as [f | ] eqn:Hf.
  - rewrite bool_decide_eq_true_2 by eauto.
    unfold os_remove, save_weather_to_file, write_file, print, fspath, bind,
      get_world, modify, ret. rewrite Hf. cbn. rewrite Hw. cbn.
    rewrite insert_delete_eq. reflexivity.
  - rewrite bool_decide_eq_false_2 by (intros [? ?]; discriminate).
    unfold save_weather_to_file, write_file, print, fspath, bind,
      get_world, modify, ret. cbn. rewrite Hw. reflexivity.
Qed.

Lemma fetched_loaded w : loaded w -> loaded (fetched w).
Proof. unfold fetched. destruct (String.eqb _ _); intros H; exact H. Qed.

(** The stale and the missing cache: fetch, test for the error key, then
    write the file unless the key is there. *)
Lemma weather_data_stale w :
  loaded w -> must_fetch w = true ->
  get_weather_data_from_api w =
    match py_contains "error" (Spec.fetch_result w) with
    | inl m => (Raise (TypeError m), fetched w)
    | inr true => (Return (Spec.fetch_result w), fetched w)
    | inr false =>
        (Return (Spec.fetch_result w),
         cache_written (Json.dumps (Spec.fetch_result w)) (fetched w))
    end.
Proof.
  intros Hl Hm. unfold get_weather_data_from_api.
  unfold bind at 1, print at 1, modify at 1. fold (announced w).
  assert (Hl0 : loaded (announced w)) by exact Hl.
  rewrite (bind_return _ _ _ _ _ (should_update_run _ Hl0)).
  change (must_fetch (announced w)) with (must_fetch w). rewrite Hm.
  rewrite (bind_return _ _ _ _ _ (fetch_weather_run _ Hl0)).
  change (Spec.fetch_result (announced w)) with (Spec.fetch_result w).
  change (if String.eqb (Spec.api_key (announced w)) "" then announced w
          else set_requests_sent
                 (requests_sent (announced w) ++ [Spec.request_url (announced w)])%list
                 (announced w))
    with (fetched w).
  unfold bind at 1. rewrite py_in_run.
  destruct (py_contains "error" (Spec.fetch_result w)) as [m | [ | ]];
    [ reflexivity | reflexivity | ].
  cbn [negb].
  rewrite (bind_return _ _ _ _ _
             (update_weather_file_run _ _ (fetched_loaded w Hl))).
  reflexivity.
Qed.

Lemma os_path_getmtime_run w p f :
  fs w !! p = Some f -> os_path_getmtime (Some p) w = (Return (mtime f), w).
Proof. intros H. unfold os_path_getmtime, fspath, bind, get_world, ret. now rewrite H. Qed.

Lemma read_file_run w p f :
  fs w !! p = Some f -> read_file (Some p) w = (Return (content f), w).
Proof. intros H. unfold read_file, fspath, bind, get_world, ret. now rewrite H. Qed.

Lemma read_file_missing w p :
  fs w !! p = None -> read_file (Some p) w = (Raise (FileNotFoundError p), w).
Proof. intros H. unfold read_file, fspath, bind, get_world, ret. now rewrite H. Qed.

Lemma json_loads_run text w :
  json_loads text w =
    (match Json.loads text with Some v => Return v | None => Raise JSONDecodeError end, w).
Proof. unfold json_loads. destruct (Json.loads text); reflexivity. Qed.

(** The fresh cache: the file is read and decoded, nothing else happens. *)
Lemma weather_data_fresh w f :
  loaded w -> must_fetch w = false -> fs w !! weather_path w = Some f ->
  get_weather_data_from_api w =
    (match Json.loads (content f) with
     | Some v => Return v
     | None => Raise JSONDecodeError
     end,
     set_stdout
       (stdout w ++ ["Getting weather data...";
                     "Weather file is up-to-date, last update " +:+
                     Str.of_int (age w f) +:+ " us ago"])%list w).
Proof.
  intros Hl Hm Hf. destruct (loaded_inv w Hl) as (s & yp & wp & Hs & Hy & Hw).
  rewrite (weather_path_eq w wp Hw) in Hf.
  unfold get_weather_data_from_api.
  unfold bind at 1, print at 1, modify at 1. fold (announced w).
  assert (Hl0 : loaded (announced w)) by exact Hl.
  rewrite (bind_return _ _ _ _ _ (should_update_run _ Hl0)).
  change (must_fetch (announced w)) with (must_fetch w). rewrite Hm.
  unfold bind at 1, get_world at 1.
  change (JSON_FILE_WEATHER (announced w)) with (JSON_FILE_WEATHER w). rewrite Hw.
  assert (Hf0 : fs (announced w) !! wp = Some f) by exact Hf.
  rewrite (bind_return _ _ _ _ _ (os_path_getmtime_run _ _ _ Hf0)).
  unfold bind at 1, datetime_now at 1.
  unfold bind at 1, print at 1, modify at 1.
  set (w1 := set_stdout _ (announced w)).
  assert (Hf1 : fs w1 !! wp = Some f) by exact Hf.
  rewrite (bind_return _ _ _ _ _ (read_file_run _ _ _ Hf1)).
  rewrite json_loads_run. subst w1. unfold announced, set_stdout, age. cbn.
  rewrite <- app_assoc. reflexivity.
Qed.

(** ** The configuration *)

Lemma section_or_empty_run p name w :
  section_or_empty p name w =
    (match Spec.read_section p name with
     | inr d => Return d
     | inl e => Raise (ConfigError e)
     end, w).
Proof.
  unfold section_or_empty, Spec.read_section.
  destruct (ConfigParser.contains p name); [ | reflexivity ].
  destruct (ConfigParser.section_dict p name); reflexivity.
Qed.

Lemma ConfigParser_read_run w :
  ConfigParser_read INI_FILE w =
    (match fs w !! INI_FILE with
     | None => Return ConfigParser.new
     | Some f =>
         match ConfigParser.read_text (content f) with
         | inr p => Return p
         | inl e => Raise (ConfigError e)
         end
     end, w).
Proof.
  unfold ConfigParser_read, bind, get_world.
  destruct (fs w !! INI_FILE) as [f | ]; [ | reflexivity ].
  destruct (ConfigParser.read_text (content f)); reflexivity.
Qed.

(** Storing the sections of a parser that converts all four. *)
Lemma load_sections_run p s w :
  Spec.read_section p "AppSettings" = inr (Spec.Settings s) ->
  Spec.read_section p "Apps" = inr (Spec.Apps s) ->
  Spec.read_section p "Links" = inr (Spec.Links s) ->
  Spec.read_section p "Socials" = inr (Spec.Socials s) ->
  (settings <- section_or_empty p "AppSettings" ;;
   config_setitem "Settings" settings ;;;
   apps <- section_or_empty p "Apps" ;;
   config_setitem "Apps" apps ;;;
   links <- section_or_empty p "Links" ;;
   config_setitem "Links" links ;;;
   socials <- section_or_empty p "Socials" ;;
   config_setitem "Socials" socials ;;;
   s <- config_getitem "Settings" ;;
   modify (set_json_files
             (Some (Dict.get_default s "YoutubeJSON" "youtube_data.json"))
             (Some (Dict.get_default s "WeatherJSON" "weather_data.json")))) w
  = (Return tt, configured s w).
Proof.
  intros H1 H2 H3 H4.
  unfold bind at 1. rewrite section_or_empty_run, H1.
  unfold bind at 1, config_setitem at 1, modify at 1.
  unfold bind at 1. rewrite section_or_empty_run, H2.
  unfold bind at 1, config_setitem at 1, modify at 1.
  unfold bind at 1. rewrite section_or_empty_run, H3.
  unfold bind at 1, config_setitem at 1, modify at 1.
  unfold bind at 1. rewrite section_or_empty_run, H4.
  unfold bind at 1, config_setitem at 1, modify at 1.
  erewrite bind_return.
  2:{ apply config_getitem_run. cbn.
      rewrite !lookup_insert_ne by discriminate. apply lookup_insert_eq. }
  reflexivity.
Qed.

Lemma read_section_new name :
  String.eqb name ConfigParser.default_section = false ->
  Spec.read_section ConfigParser.new name = inr [].
Proof.
  intros H. unfold Spec.read_section, ConfigParser.contains. rewrite H. reflexivity.
Qed.

(** [load_ini] stores what the file amounts to, or raises what
    [configparser] reports. *)
Lemma load_ini_accepted w s :
  Spec.ini_sections w = inr s -> load_ini w = (Return tt, configured s w).
Proof.
  unfold Spec.ini_sections, load_ini. intros H.

  unfold bind at 1. rewrite ConfigParser_read_run.
  destruct (fs w !! INI_FILE) as [f | ].
  - unfold Spec.parse_ini in H.
    destruct (ConfigParser.read_text (content f)) as [e | p]; [ discriminate | ].
    destruct (Spec.read_section p "AppSettings") as [ | s1 ] eqn:H1; [ discriminate | ].
    destruct (Spec.read_section p "Apps") as [ | s2 ] eqn:H2; [ discriminate | ].
    destruct (Spec.read_section p "Links") as [ | s3 ] eqn:H3; [ discriminate | ].
    destruct (Spec.read_section p "Socials") as [ | s4 ] eqn:H4; [ discriminate | ].
    injection H as <-. now apply load_sections_run.
  - injection H as <-. apply load_sections_run; now apply read_section_new.
Qed.

Lemma load_ini_rejected w e :
  Spec.ini_sections w = inl e -> exists w', load_ini w = (Raise (ConfigError e), w').
Proof.
  unfold Spec.ini_sections, load_ini. intros H.
  unfold bind at 1. rewrite ConfigParser_read_run.
  destruct (fs w !! INI_FILE) as [f | ]; [ | discriminate ].
  unfold Spec.parse_ini in H.
  destruct (ConfigParser.read_text (content f)) as [e' | p].
  { injection H as <-. eauto. }
  unfold bind at 1. rewrite section_or_empty_run.
  destruct (Spec.read_section p "AppSettings") as [ | s1 ] eqn:H1.
  { injection H as <-. eauto. }
  unfold bind at 1, config_setitem at 1, modify at 1.
  unfold bind at 1. rewrite section_or_empty_run.
  destruct (Spec.read_section p "Apps") as [ | s2 ] eqn:H2.
  { injection H as <-. eauto. }
  unfold bind at 1, config_setitem at 1, modify at 1.
  unfold bind at 1. rewrite section_or_empty_run.
  destruct (Spec.read_section p "Links") as [ | s3 ] eqn:H3.
  { injection H as <-. eauto. }
  unfold bind at 1, config_setitem at 1, modify at 1.
  unfold bind at 1. rewrite section_or_empty_run.
  destruct (Spec.read_section p "Socials") as [ | s4 ] eqn:H4.
  { injection H as <-. eauto. }
  discriminate.
Qed.

(** ** The cache states *)

Lemma fresh_iff w :
  must_fetch w = false <->
  exists f, fs w !! weather_path w = Some f /\
            age w f <= minutes (Spec.renewal_interval w).
Proof.
  unfold must_fetch, Spec.weather_cache.
  destruct (fs w !! weather_path w) as [f | ].
  - destruct (Z.ltb_spec (minutes (Spec.renewal_interval w)) (age w f)); split.
    + discriminate.
    + intros (f' & [= <-] & Hle). lia.
    + intros _. exists f. split; [ reflexivity | lia ].
    + reflexivity.
  - split; [ discriminate | intros (f & [=] & _) ].
Qed.


Lemma must_fetch_not_fresh w :
  must_fetch w = true <-> Spec.weather_cache w <> Spec.FRESH.
Proof.
  unfold must_fetch. destruct (Spec.weather_cache w); split; congruence.
Qed.


Lemma fetched_fs w : fs (fetched w) = fs w.
Proof. unfold fetched. now destruct (String.eqb _ _). Qed.

(** The response of the weather view, from the outcome of the pipeline. *)
Lemma serve_weather w :
  serve GET_api_weather w =
    match get_weather_data_from_api w with
    | (Return data, w') =>
        ({| status := 200; payload := Text (Json.dumps data) "application/json" |}, w')
    | (Raise _, w') => (internal_server_error, w')
    end.
Proof.
  unfold serve, view, get_weather, bind.
  destruct (get_weather_data_from_api w) as [[data | e] w']; reflexivity.
Qed.

(** The response when the weather has to be fetched. *)
Lemma serve_weather_stale w :
  loaded w -> must_fetch w = true ->
  serve GET_api_weather w =
    match py_contains "error" (Spec.fetch_result w) with
    | inl m => (internal_server_error, fetched w)
    | inr true => (weather_response (Spec.fetch_result w), fetched w)
    | inr false =>
        (weather_response (Spec.fetch_result w),
         cache_written (Json.dumps (Spec.fetch_result w)) (fetched w))
    end.
Proof.
  intros Hl Hs. rewrite serve_weather, (weather_data_stale w Hl Hs).
  destruct (py_contains "error" (Spec.fetch_result w)) as [m | [ | ]]; reflexivity.
Qed.


(** C2 (the cache survives a failed fetch).  When the cache is missing or
    stale and the fetch results in a mapping that has the key [error],
    [get_weather_data_from_api] returns that very mapping, and the file system
    afterwards is the one before: no file written, none removed, the cached
    text and its modification time untouched. *)
Theorem fetch_failure_keeps_cache (w : World) (d : list (string * pyval)) :
  loaded w -> Spec.weather_cache w <> Spec.FRESH ->
  Spec.fetch_result w = PyDict d -> Dict.contains d "error" = true ->
  fst (get_weather_data_from_api w) = Return (PyDict d) /\
  fs (snd (get_weather_data_from_api w)) = fs w.
Proof.
  intros Hl Hs Hd He. apply must_fetch_not_fresh in Hs.
  rewrite (weather_data_stale w Hl Hs), Hd. cbn. rewrite He. cbn.
  split; [ reflexivity | apply fetched_fs ].
Qed.








(** ** YouTube *)

Lemma comprehension_extend items w :
  forallb (fun kv => Spec.lacks_url (snd kv)) items = true ->
  comprehension (fun kv => dict_url (fst kv) (snd kv)) items w =
    (Return (map Spec.extend items), w).
Proof.
  induction items as [ | [url v] items IH ]; intros H; [ reflexivity | ].
  cbn [forallb snd] in H. apply andb_true_iff in H as [Hv H].
  cbn [comprehension map]. unfold bind at 1.
  destruct v as [ | | | | | | d ]; try discriminate.
  cbn [Spec.lacks_url] in Hv. apply negb_true_iff in Hv.
  unfold dict_url at 1. cbn [fst snd]. rewrite Hv. cbn [ret].
  rewrite (bind_return _ _ _ _ _ (IH H)). reflexivity.
Qed.

Lemma load_youtube_run w :
  loaded w ->
  load_youtube_from_file w =
    (match fs w !! youtube_path w with
     | None => Return (PyDict [])
     | Some f =>
         match Json.loads (content f) with
         | Some v => Return v
         | None => Raise JSONDecodeError
         end
     end, w).
Proof.
  intros Hl. destruct (loaded_inv w Hl) as (s & yp & wp & Hs & Hy & Hw).
  unfold load_youtube_from_file, youtube_path. rewrite Hy. cbn [default from_option id].
  destruct (fs w !! yp) as [f | ] eqn:Hf.
  - destruct (Json.loads (content f)) as [v | ] eqn:Hv.
    + apply try_return. unfold bind at 1, get_world at 1. rewrite Hy.
      rewrite (bind_return _ _ _ _ _ (read_file_run _ _ _ Hf)).
      unfold bind. rewrite json_loads_run, Hv. reflexivity.
    + erewrite try_raise.
      2:{ unfold bind at 1, get_world at 1. rewrite Hy.
          rewrite (bind_return _ _ _ _ _ (read_file_run _ _ _ Hf)).
          unfold bind. rewrite json_loads_run, Hv. reflexivity. }
      reflexivity.
  - erewrite try_raise.
    2:{ unfold bind at 1, get_world at 1. rewrite Hy.
        apply bind_raise. now apply read_file_missing. }
    reflexivity.
Qed.


(** ** Launching applications *)

Lemma config_get_run name w :
  config_get name w = (Return (default [] (config w !! name)), w).
Proof. reflexivity. Qed.

(** C6, amended (status of an application launch).  [POST /run/<name>]
    answers 404 with an [error] field when [name] is not a key of [Apps].
    For a registered name, it answers 500 with the exception message in the
    [error] field when the spawn call raises, and 200 with [status] "ok"
    when it does not; the command is then handed to the shell and the handler
    returns without waiting for it.  The call does not raise when the
    command line has no NUL character and a shell can be started, whether or
    not the path names an existing program. *)
Theorem run_app_status (w : World) (app_name : string) :
  match Dict.get (apps_of w) app_name with
  | None =>
      serve (POST_run app_name) w = (failed_with 404 "App not found", w)
  | Some path =>
      (forall e w', Popen_shell path w = (Raise e, w') ->
         serve (POST_run app_name) w = (failed_with 500 (exn_str e), w')) /\
      (forall w', Popen_shell path w = (Return tt, w') ->
         serve (POST_run app_name) w = (launched, w') /\
         processes w' = (processes w ++ [path])%list) /\
      (Str.contains path NUL = false -> shell_failure w = None ->
         exists w', Popen_shell path w = (Return tt, w'))
  end.
Proof.
  unfold serve, view, run_app, apps_of.
  rewrite (bind_return _ _ _ _ _ (config_get_run "Apps" w)).
  destruct (Dict.get (default [] (config w !! "Apps")) app_name) as [path | ];
    [ | reflexivity ].
  split; [ | split ].
  - intros e w' H. erewrite try_raise by (apply bind_raise; exact H). reflexivity.
  - intros w' H. erewrite try_return by (rewrite (bind_return _ _ _ _ _ H); reflexivity).
    split; [ reflexivity | ].
    unfold Popen_shell in H. destruct (Str.contains path _); [ discriminate | ].
    unfold bind, get_world in H. destruct (shell_failure w); [ discriminate | ].
    injection H as <-. reflexivity.
  - intros Hn Hs. unfold Popen_shell. unfold NUL in Hn. rewrite Hn.
    unfold bind, get_world. rewrite Hs. eauto.
Qed.

(** ** Configuration: absent file, reload *)

Lemma configured_lookup s w :
  config (configured s w) !! "Settings" = Some (Spec.Settings s) /\
  config (configured s w) !! "Apps" = Some (Spec.Apps s) /\
  config (configured s w) !! "Links" = Some (Spec.Links s) /\
  config (configured s w) !! "Socials" = Some (Spec.Socials s).
Proof.
  unfold configured. cbn.
  repeat split;
    repeat (rewrite lookup_insert_ne by discriminate); apply lookup_insert_eq.
Qed.

Lemma configured_loaded s w : loaded (configured s w).
Proof.
  destruct (configured_lookup s w) as (H & _).
  unfold loaded. rewrite H. unfold configured. cbn. eauto.
Qed.

Lemma ini_sections_missing w :
  fs w !! INI_FILE = None -> Spec.ini_sections w = inr Spec.no_sections.
Proof. unfold Spec.ini_sections. now intros ->. Qed.

Lemma main_run w s :
  Spec.ini_sections w = inr s ->
  fst (main w) =
    Return (Dict.get_default (Spec.Settings s) "IP" "0.0.0.0",
            match Dict.get (Spec.Settings s) "Port" with
            | Some v => match Str.int v with Some n => n | None => 5000 end
            | None => 5000
            end).
Proof.
  intros H. unfold main.
  rewrite (bind_return _ _ _ _ _ (load_ini_accepted w s H)).
  destruct (configured_lookup s w) as (Hs & _).
  pose proof (config_getitem_run _ _ _ Hs) as Hg.
  rewrite (bind_return _ _ _ _ _ Hg), (bind_return _ _ _ _ _ Hg).
  unfold get_or_int, py_int.
  destruct (Dict.get (Spec.Settings s) "Port") as [v | ]; [ | reflexivity ].
  destruct (Str.int v) eqn:Hv.
  - erewrite bind_return by (apply try_return; reflexivity). reflexivity.
  - erewrite bind_return by (erewrite try_raise by reflexivity; reflexivity).
    reflexivity.
Qed.

(** C8 (defaults without a configuration file).  When [config.ini] is
    missing, [load_ini] returns normally, each of the four sections becomes
    the empty mapping, the routes [/api/socials], [/api/settings],
    [/api/apps] and [/api/links] then answer 200 with the empty JSON object,
    and [main] binds the server to 0.0.0.0, port 5000. *)
Theorem missing_config_defaults (w : World) :
  fs w !! INI_FILE = None ->
  let w' := snd (load_ini w) in
  fst (load_ini w) = Return tt /\
  (config w' !! "Settings" = Some [] /\ config w' !! "Apps" = Some [] /\
   config w' !! "Links" = Some [] /\ config w' !! "Socials" = Some []) /\
  (fst (serve GET_api_socials w') = empty_object 200 /\
   fst (serve GET_api_settings w') = empty_object 200 /\
   fst (serve GET_api_apps w') = empty_object 200 /\
   fst (serve GET_api_links w') = empty_object 200) /\
  fst (main w) = Return ("0.0.0.0", 5000).
Proof.
  intros Hf w'. pose proof (ini_sections_missing w Hf) as Hi.
  subst w'. rewrite (load_ini_accepted w _ Hi).
  destruct (configured_lookup Spec.no_sections w) as (H1 & H2 & H3 & H4).
  cbn [fst snd]. split; [ reflexivity | ]. split; [ auto | ]. split.
  - unfold serve, view, get_socials, api_settings, api_apps, api_links.
    rewrite !(bind_return _ _ _ _ _ (config_get_run _ _)), H1, H2, H3, H4.
    repeat split.
  - rewrite (main_run w _ Hi). reflexivity.
Qed.

(** C9, amended (reload).  [POST /reload_settings] reads the file again.
    When the file is absent, or [configparser] accepts it and converts the
    four sections, the answer is 200 with [status] "reloaded" and the
    sections are stored; when [configparser] rejects the file, the exception
    leaves the handler and the answer is 500. *)
Theorem reload_settings_status (w : World) :
  (fs w !! INI_FILE = None ->
   serve POST_reload_settings w = (reloaded, configured Spec.no_sections w)) /\
  (forall f s,
     fs w !! INI_FILE = Some f -> Spec.parse_ini (content f) = inr s ->
     serve POST_reload_settings w = (reloaded, configured s w)) /\
  (forall f e,
     fs w !! INI_FILE = Some f -> Spec.parse_ini (content f) = inl e ->
     fst (load_ini w) = Raise (ConfigError e) /\
     fst (serve POST_reload_settings w) = internal_server_error).
Proof.
  unfold serve, view, reload_settings. split; [ | split ].
  - intros Hf.
    rewrite (bind_return _ _ _ _ _
               (load_ini_accepted w _ (ini_sections_missing w Hf))).
    reflexivity.
  - intros f s Hf Hs.
    assert (H : Spec.ini_sections w = inr s).
    { unfold Spec.ini_sections. now rewrite Hf. }
    rewrite (bind_return _ _ _ _ _ (load_ini_accepted w s H)). reflexivity.
  - intros f e Hf He.
    assert (H : Spec.ini_sections w = inl e).
    { unfold Spec.ini_sections. now rewrite Hf. }
    destruct (load_ini_rejected w e H) as [w' Hr].
    rewrite (bind_raise _ _ _ _ _ Hr), Hr. split; reflexivity.
Qed.

(** ** The configuration stays loaded *)

Lemma keeps_ret {A} (a : A) : keeps_loaded (ret a).
Proof. intros w H. exact H. Qed.

Lemma keeps_raise {A} e : keeps_loaded (@raise A e).
Proof. intros w H. exact H. Qed.

Lemma keeps_get_world : keeps_loaded get_world.
Proof. intros w H. exact H. Qed.

Lemma keeps_bind {A B} (m : Py A) (k : A -> Py B) :
  keeps_loaded m -> (forall a, keeps_loaded (k a)) -> keeps_loaded (bind m k).
Proof.
  intros Hm Hk w H. unfold bind. specialize (Hm w H).
  destruct (m w) as [[a | e] w']; cbn in *; [ now apply Hk | assumption ].
Qed.

Lemma keeps_try {A} (m : Py A) handles h :
  keeps_loaded m -> (forall e, keeps_loaded (h e)) ->
  keeps_loaded (try_except m handles h).
Proof.
  intros Hm Hh w H. unfold try_except. specialize (Hm w H).
  destruct (m w) as [[a | e] w']; cbn in *; [ assumption | ].
  destruct (handles e); [ now apply Hh | assumption ].
Qed.

Lemma keeps_modify f :
  (forall w, loaded w -> loaded (f w)) -> keeps_loaded (modify f).
Proof. intros Hf w H. now apply Hf. Qed.

Lemma loaded_set_config name s w :
  loaded w -> loaded (set_config (<[name := s]> (config w)) w).
Proof.
  intros (H1 & H2 & H3). repeat split; try assumption. cbn.
  rewrite lookup_insert. destruct (decide (name = "Settings")); [ eauto | assumption ].
Qed.

Create HintDb keeps.
#[local] Hint Resolve keeps_ret keeps_raise keeps_get_world : keeps.

(** One step of a proof that a computation keeps the configuration
    loaded: through [bind] and [try], and by cases on what is matched. *)
Ltac keeps_step :=
  match goal with
  | |- keeps_loaded (bind _ _) => apply keeps_bind; [ | intros ? ]
  | |- keeps_loaded (try_except _ _ _) => apply keeps_try; [ | intros ? ]
  | |- keeps_loaded (modify _) => apply keeps_modify; intros ? ?
  | |- keeps_loaded (if ?b then _ else _) => destruct b
  | |- keeps_loaded (match ?x with _ => _ end) => destruct x
  | |- keeps_loaded _ => solve [ auto with keeps ]
  end.

Ltac keeps := repeat keeps_step; try assumption.

Lemma keeps_print l : keeps_loaded (print l).
Proof. unfold print. keeps. Qed.

Lemma keeps_fspath p who : keeps_loaded (fspath p who).
Proof. unfold fspath. keeps. Qed.
#[local] Hint Resolve keeps_print keeps_fspath : keeps.

Lemma keeps_os_path_exists p : keeps_loaded (os_path_exists p).
Proof. unfold os_path_exists. keeps. Qed.

Lemma keeps_os_path_getmtime p : keeps_loaded (os_path_getmtime p).
Proof. unfold os_path_getmtime. keeps. Qed.

Lemma keeps_os_remove p : keeps_loaded (os_remove p).
Proof. unfold os_remove. keeps. Qed.

Lemma keeps_read_file p : keeps_loaded (read_file p).
Proof. unfold read_file. keeps. Qed.

Lemma keeps_write_file p text : keeps_loaded (write_file p text).
Proof. unfold write_file. keeps. Qed.

Lemma keeps_datetime_now : keeps_loaded datetime_now.
Proof. intros w H. exact H. Qed.

Lemma keeps_json_loads text : keeps_loaded (json_loads text).
Proof. unfold json_loads. keeps. Qed.

Lemma keeps_requests_get url : keeps_loaded (requests_get url).
Proof. unfold requests_get. keeps. Qed.

Lemma keeps_response_json r : keeps_loaded (response_json r).
Proof. unfold response_json. keeps. Qed.

Lemma keeps_Popen_shell cmd : keeps_loaded (Popen_shell cmd).
Proof. unfold Popen_shell. keeps. Qed.

Lemma keeps_ConfigParser_read path : keeps_loaded (ConfigParser_read path).
Proof. unfold ConfigParser_read. keeps. Qed.

Lemma keeps_section_or_empty p name : keeps_loaded (section_or_empty p name).
Proof. unfold section_or_empty. keeps. Qed.

Lemma keeps_py_in x data : keeps_loaded (py_in x data).
Proof. unfold py_in. keeps. Qed.

Lemma keeps_py_int x : keeps_loaded (py_int x).
Proof. unfold py_int. keeps. Qed.

Lemma keeps_config_getitem name : keeps_loaded (config_getitem name).
Proof. unfold config_getitem. keeps. Qed.

Lemma keeps_config_get name : keeps_loaded (config_get name).
Proof. unfold config_get. keeps. Qed.

Lemma keeps_config_setitem name s : keeps_loaded (config_setitem name s).
Proof. unfold config_setitem. keeps. now apply loaded_set_config. Qed.

Lemma keeps_jsonify v code : keeps_loaded (jsonify v code).
Proof. unfold jsonify. keeps. Qed.

#[local] Hint Resolve keeps_os_path_exists keeps_os_path_getmtime keeps_os_remove
  keeps_read_file keeps_write_file keeps_datetime_now keeps_json_loads
  keeps_requests_get keeps_response_json keeps_Popen_shell keeps_ConfigParser_read
  keeps_section_or_empty keeps_py_in keeps_py_int keeps_config_getitem
  keeps_config_get keeps_config_setitem keeps_jsonify : keeps.

Lemma keeps_load_ini : keeps_loaded load_ini.
Proof.
  unfold load_ini. keeps.
  unfold loaded in *. cbn. intuition eauto.
Qed.

Lemma keeps_comprehension {A B} (f : A -> Py B) l :
  (forall x, keeps_loaded (f x)) -> keeps_loaded (comprehension f l).
Proof. intros Hf. induction l; cbn [comprehension]; keeps. Qed.

Lemma keeps_dict_url url data : keeps_loaded (dict_url url data).
Proof. unfold dict_url. keeps. Qed.

Lemma keeps_view r : keeps_loaded (view r).
Proof.
  pose proof keeps_load_ini. pose proof @keeps_comprehension. pose proof keeps_dict_url.
  destruct r; cbn [view];
    unfold get_weather, get_weather_data_from_api, should_update_weather_file,
      file_create, fetch_weather_from_api, update_weather_file, save_weather_to_file,
      get_socials, get_anime, get_youtube, load_youtube_from_file, dict_items,
      api_settings, api_apps, api_links, run_app, reload_settings;
    keeps.
Qed.

(** Serving a request leaves the configuration loaded. *)
Lemma serve_loaded r w : loaded w -> loaded (snd (serve r w)).
Proof.
  intros H. pose proof (keeps_view r w H) as Hv. unfold serve.
  destruct (view r w) as [[resp | e] w']; exact Hv.
Qed.

(** When [main] reaches [app.run], the configuration is loaded. *)
Lemma main_loaded w a w' : main w = (Return a, w') -> loaded w'.
Proof.
  unfold main. destruct (Spec.ini_sections w) as [e | s] eqn:H.
  - destruct (load_ini_rejected w e H) as [w1 Hr].
    rewrite (bind_raise _ _ _ _ _ Hr). discriminate.
  - rewrite (bind_return _ _ _ _ _ (load_ini_accepted w s H)).
    intros Hm.
    match type of Hm with
    | ?m _ = _ =>
        assert (Hk : keeps_loaded m) by keeps;
        specialize (Hk _ (configured_loaded s w)); rewrite Hm in Hk; exact Hk
    end.
Qed.

(** X1 (the configuration stays loaded).  The configuration is loaded in
    every world the server handles a request in: [config] has the section
    [Settings] and both file names are set, whatever requests were served
    before and however the files, the clock and the upstream API changed in
    between. *)
Theorem running_loaded w : running w -> loaded w.
Proof.
  induction 1 as [ w a w' Hm | r w _ IH | w w' _ IH (Hc & Hy & Hw) ].
  - exact (main_loaded w a w' Hm).
  - now apply serve_loaded.
  - destruct IH as (H1 & H2 & H3). unfold loaded. rewrite Hc, Hy, Hw. auto.
Qed.

(** ** What a request leaves alone *)

Lemma leaves_ret {A X} (f : World -> X) (a : A) : leaves f (ret a).
Proof. intros w. reflexivity. Qed.

Lemma leaves_raise {A X} (f : World -> X) e : leaves f (@raise A e).
Proof. intros w. reflexivity. Qed.

Lemma leaves_get_world {X} (f : World -> X) : leaves f get_world.
Proof. intros w. reflexivity. Qed.

Lemma leaves_bind {A B X} (f : World -> X) (m : Py A) (k : A -> Py B) :
  leaves f m -> (forall a, leaves f (k a)) -> leaves f (bind m k).
Proof.
  intros Hm Hk w. unfold bind. specialize (Hm w).
  destruct (m w) as [[a | e] w']; cbn in *; [ | assumption ].
  rewrite <- Hm. apply Hk.
Qed.

Lemma leaves_try {A X} (f : World -> X) (m : Py A) handles h :
  leaves f m -> (forall e, leaves f (h e)) -> leaves f (try_except m handles h).
Proof.
  intros Hm Hh w. unfold try_except. specialize (Hm w).
  destruct (m w) as [[a | e] w']; cbn in *; [ assumption | ].
  destruct (handles e); [ | assumption ]. rewrite <- Hm. apply Hh.
Qed.

Lemma leaves_modify {X} (f : World -> X) g :
  (forall w, f (g w) = f w) -> leaves f (modify g).
Proof. intros H w. apply H. Qed.

Lemma leaves_comprehension {A B X} (f : World -> X) (g : A -> Py B) l :
  (forall a, leaves f (g a)) -> leaves f (comprehension g l).
Proof.
  intros Hg. induction l as [ | x l IH ]; cbn [comprehension].
  - apply leaves_ret.
  - apply leaves_bind; [ apply Hg | intros y ].
    apply leaves_bind; [ exact IH | intros ys ]. apply leaves_ret.
Qed.

(** One step of a proof that a computation leaves a component alone:
    through the monad, by cases on what is matched, and into the library
    calls. *)
Ltac leaves_step :=
  match goal with
  | |- leaves _ (bind _ _) => apply leaves_bind; [ | intros ? ]
  | |- leaves _ (try_except _ _ _) => apply leaves_try; [ | intros ? ]
  | |- leaves _ (modify _) => apply leaves_modify; intros ?; reflexivity
  | |- leaves _ (ret _) => apply leaves_ret
  | |- leaves _ (raise _) => apply leaves_raise
  | |- leaves _ get_world => apply leaves_get_world
  | |- leaves _ datetime_now => intros ?; reflexivity
  | |- leaves _ (comprehension _ _) => apply leaves_comprehension; intros ?
  | |- leaves _ (if ?b then _ else _) => destruct b
  | |- leaves _ (match ?x with _ => _ end) => destruct x
  | |- leaves _ _ =>
      progress unfold print, fspath, os_path_exists, os_path_getmtime, os_remove,
        read_file, write_file, json_loads, requests_get, response_json,
        Popen_shell, ConfigParser_read, section_or_empty, py_in, py_int,
        config_getitem, config_get, config_setitem, jsonify, dict_items, dict_url
  end.

Ltac leaves := repeat leaves_step.

Lemma load_ini_traffic : leaves traffic load_ini.
Proof. unfold load_ini. leaves. Qed.

Lemma load_ini_processes : leaves processes load_ini.
Proof. unfold load_ini. leaves. Qed.

Lemma weather_globals : leaves globals get_weather.
Proof.
  unfold get_weather, get_weather_data_from_api, should_update_weather_file,
    file_create, fetch_weather_from_api, update_weather_file, save_weather_to_file.
  leaves.
Qed.

Lemma weather_processes : leaves processes get_weather.
Proof.
  unfold get_weather, get_weather_data_from_api, should_update_weather_file,
    file_create, fetch_weather_from_api, update_weather_file, save_weather_to_file.
  leaves.
Qed.

Lemma youtube_world {X} (f : World -> X) : leaves f get_youtube.
Proof. unfold get_youtube, load_youtube_from_file. leaves. Qed.

Lemma run_app_globals n : leaves globals (run_app n).
Proof. unfold run_app. leaves. Qed.

Lemma run_app_traffic n : leaves traffic (run_app n).
Proof. unfold run_app. leaves. Qed.

Lemma serve_leaves {X} (f : World -> X) r w :
  leaves f (view r) -> f (snd (serve r w)) = f w.
Proof.
  intros H. specialize (H w). unfold serve.
  destruct (view r w) as [[resp | e] w']; exact H.
Qed.

(** X2 (only a reload changes the configuration).  A request to any route
    other than [POST /reload_settings] leaves the global [config] and the two
    file names [JSON_FILE_YOUTUBE] and [JSON_FILE_WEATHER] as they were,
    whether the handler returns or raises. *)
Theorem config_changes_only_on_reload (r : request) (w : World) :
  r <> POST_reload_settings -> same_globals w (snd (serve r w)).
Proof.
  intros Hr.
  assert (H : globals (snd (serve r w)) = globals w).
  { apply serve_leaves. destruct r; cbn [view];
      [ apply weather_globals | | | apply youtube_world | | | | apply run_app_globals
      | contradiction ];
      unfold get_socials, get_anime, api_settings, api_apps, api_links; leaves. }
  unfold globals in H. injection H as H1 H2 H3. repeat split; assumption.
Qed.

(** X3 (what is started).  A request starts no process, or exactly one:
    then the request is [POST /run/<name>], [name] is a key of the [Apps]
    section, and the command handed to the shell is the value stored under
    that key. *)
Theorem spawns_only_registered (r : request) (w : World) :
  processes (snd (serve r w)) = processes w \/
  exists name path,
    r = POST_run name /\ Dict.get (apps_of w) name = Some path /\
    processes (snd (serve r w)) = (processes w ++ [path])%list.
Proof.
  destruct r as [ | | | | | | | name | ];
    try (left; apply serve_leaves; cbn [view];
         solve [ apply weather_processes | apply youtube_world
               | unfold get_socials, get_anime, api_settings, api_apps, api_links,
                   reload_settings, load_ini; leaves ]).
  unfold serve, view, run_app, apps_of.
  rewrite (bind_return _ _ _ _ _ (config_get_run "Apps" w)).
  destruct (Dict.get (default [] (config w !! "Apps")) name) as [path | ] eqn:Hp;
    [ | left; reflexivity ].
  unfold try_except, bind, Popen_shell.
  destruct (Str.contains path _); [ left; reflexivity | ].
  unfold bind, get_world. destruct (shell_failure w); [ left; reflexivity | ].
  right. exists name, path. cbn. auto.
Qed.

Lemma reload_traffic : leaves traffic reload_settings.
Proof. unfold reload_settings, load_ini. leaves. Qed.

(** X4 (files and outbound requests).  With the configuration loaded, a
    request changes a file only if it is [GET /api/weather] finding the cache
    missing or stale, and the file is then the weather cache file; and it
    sends no request, or the one GET to the weather URL, again only as
    [GET /api/weather] with the cache missing or stale. *)
Theorem files_and_requests (r : request) (w : World) :
  loaded w ->
  (forall p, fs (snd (serve r w)) !! p <> fs w !! p ->
     r = GET_api_weather /\ Spec.weather_cache w <> Spec.FRESH /\
     p = weather_path w) /\
  (requests_sent (snd (serve r w)) = requests_sent w \/
   r = GET_api_weather /\ Spec.weather_cache w <> Spec.FRESH /\
   requests_sent (snd (serve r w)) = (requests_sent w ++ [Spec.request_url w])%list).
Proof.
  intros Hl.
  assert (Hother : r <> GET_api_weather -> traffic (snd (serve r w)) = traffic w).
  { intros Hr. apply serve_leaves. destruct r; cbn [view];
      [ contradiction | | | apply youtube_world | | | | apply run_app_traffic
      | apply reload_traffic ];
      unfold get_socials, get_anime, api_settings, api_apps, api_links; leaves. }
  assert (Hcase : r = GET_api_weather \/ r <> GET_api_weather)
    by (destruct r; first [ now left | right; discriminate ]).
  destruct Hcase as [-> | Hr].
  2:{ specialize (Hother Hr). unfold traffic in Hother. injection Hother as Hf Hq.
      split; [ intros p Hp; now rewrite Hf in Hp | now left ]. }
  clear Hother. destruct (must_fetch w) eqn:Hm.
  - assert (Hs : Spec.weather_cache w <> Spec.FRESH) by now apply must_fetch_not_fresh.
    rewrite (serve_weather_stale w Hl Hm).
    assert (Hq : requests_sent (fetched w) = requests_sent w \/
                 requests_sent (fetched w) =
                   (requests_sent w ++ [Spec.request_url w])%list).
    { unfold fetched. destruct (String.eqb _ _); cbn; auto. }
    destruct (py_contains "error" (Spec.fetch_result w)) as [m | [ | ]]; cbn [snd].
    + split; [ intros p Hp; now rewrite fetched_fs in Hp | ].
      destruct Hq as [Hq | Hq]; [ now left | right; auto ].
    + split; [ intros p Hp; now rewrite fetched_fs in Hp | ].
      destruct Hq as [Hq | Hq]; [ now left | right; auto ].
    + split.
      * intros p Hp. repeat split; try assumption.
        destruct (decide (p = weather_path w)) as [ | Hne ]; [ assumption | ].
        exfalso. apply Hp. unfold cache_written. cbn.
        assert (Hw : weather_path (fetched w) = weather_path w)
          by (unfold fetched; now destruct (String.eqb _ _)).
        rewrite Hw, lookup_insert_ne by congruence. now rewrite fetched_fs.
      * destruct Hq as [Hq | Hq]; [ now left | right; auto ].
  - assert (Hf : exists f, fs w !! weather_path w = Some f).
    { apply fresh_iff in Hm as (f & Hf & _). eauto. }
    destruct Hf as [f Hf].
    rewrite serve_weather, (weather_data_fresh w f Hl Hm Hf).
    destruct (Json.loads (content f)) as [v | ]; cbn;
      (split; [ intros p Hp; now destruct Hp | now left ]).
Qed.

(** ** Reloading, step by step *)

Lemma load_ini_cases w : load_ini w = load_ini_outcome w.
Proof.
  unfold load_ini_outcome.
  destruct (fs w !! INI_FILE) as [f | ] eqn:Hf.
  2:{ apply load_ini_accepted. now apply ini_sections_missing. }
  destruct (ConfigParser.read_text (content f)) as [e | p] eqn:Hp.
  { unfold load_ini. unfold bind at 1. rewrite ConfigParser_read_run, Hf, Hp. reflexivity. }
  destruct (Spec.read_section p "AppSettings") as [e | s] eqn:H1.
  { unfold load_ini. unfold bind at 1. rewrite ConfigParser_read_run, Hf, Hp.
    unfold bind at 1. rewrite section_or_empty_run, H1. reflexivity. }
  destruct (Spec.read_section p "Apps") as [e | a] eqn:H2.
  { unfold load_ini. unfold bind at 1. rewrite ConfigParser_read_run, Hf, Hp.
    unfold bind at 1. rewrite section_or_empty_run, H1.
    unfold bind at 1, config_setitem at 1, modify at 1.
    unfold bind at 1. rewrite section_or_empty_run, H2. reflexivity. }
  destruct (Spec.read_section p "Links") as [e | l] eqn:H3.
  { unfold load_ini. unfold bind at 1. rewrite ConfigParser_read_run, Hf, Hp.
    unfold bind at 1. rewrite section_or_empty_run, H1.
    unfold bind at 1, config_setitem at 1, modify at 1.
    unfold bind at 1. rewrite section_or_empty_run, H2.
    unfold bind at 1, config_setitem at 1, modify at 1.
    unfold bind at 1. rewrite section_or_empty_run, H3. reflexivity. }
  destruct (Spec.read_section p "Socials") as [e | so] eqn:H4.
  { unfold load_ini. unfold bind at 1. rewrite ConfigParser_read_run, Hf, Hp.
    unfold bind at 1. rewrite section_or_empty_run, H1.
    unfold bind at 1, config_setitem at 1, modify at 1.
    unfold bind at 1. rewrite section_or_empty_run, H2.
    unfold bind at 1, config_setitem at 1, modify at 1.
    unfold bind at 1. rewrite section_or_empty_run, H3.
    unfold bind at 1, config_setitem at 1, modify at 1.
    unfold bind at 1. rewrite section_or_empty_run, H4. reflexivity. }
  apply load_ini_accepted. unfold Spec.ini_sections, Spec.parse_ini.
  now rewrite Hf, Hp, H1, H2, H3, H4.
Qed.

(** Storing a value that is there already. *)
Lemma insert_again (k : string) (v : section) (c : gmap string section) :
  c !! k = Some v -> <[k := v]> c = c.
Proof. apply insert_id. Qed.

Lemma world_ext (w1 w2 : World) :
  fs w1 = fs w2 -> clock w1 = clock w2 -> upstream w1 = upstream w2 ->
  shell_failure w1 = shell_failure w2 -> config w1 = config w2 ->
  JSON_FILE_YOUTUBE w1 = JSON_FILE_YOUTUBE w2 ->
  JSON_FILE_WEATHER w1 = JSON_FILE_WEATHER w2 ->
  requests_sent w1 = requests_sent w2 -> processes w1 = processes w2 ->
  stdout w1 = stdout w2 -> w1 = w2.
Proof. destruct w1, w2; cbn; intros; subst; reflexivity. Qed.

Ltac same_config :=
  apply world_ext; try reflexivity; cbn;
  repeat (rewrite insert_again;
          [ | repeat (rewrite lookup_insert_ne by discriminate);
              apply lookup_insert_eq ]);
  reflexivity.

Lemma load_ini_twice w :
  load_ini (snd (load_ini w)) = load_ini w.
Proof.
  rewrite !load_ini_cases. unfold load_ini_outcome at 2 3.
  destruct (fs w !! INI_FILE) as [f | ] eqn:Hf.
  2:{ cbn [snd]. unfold load_ini_outcome.
      change (fs (configured Spec.no_sections w)) with (fs w). rewrite Hf.
      f_equal. unfold configured. same_config. }
  destruct (ConfigParser.read_text (content f)) as [e | p] eqn:Hp.
  { cbn [snd]. unfold load_ini_outcome. now rewrite Hf, Hp. }
  destruct (Spec.read_section p "AppSettings") as [e | s] eqn:H1.
  { cbn [snd]. unfold load_ini_outcome. now rewrite Hf, Hp, H1. }
  destruct (Spec.read_section p "Apps") as [e | a] eqn:H2.
  { cbn [snd]. unfold load_ini_outcome.
    change (fs (stored [("Settings", s)] w)) with (fs w).
    rewrite Hf, Hp, H1, H2. f_equal. unfold stored. same_config. }
  destruct (Spec.read_section p "Links") as [e | l] eqn:H3.
  { cbn [snd]. unfold load_ini_outcome.
    change (fs (stored [("Settings", s); ("Apps", a)] w)) with (fs w).
    rewrite Hf, Hp, H1, H2, H3. f_equal. unfold stored. same_config. }
  destruct (Spec.read_section p "Socials") as [e | so] eqn:H4.
  { cbn [snd]. unfold load_ini_outcome.
    change (fs (stored [("Settings", s); ("Apps", a); ("Links", l)] w)) with (fs w).
    rewrite Hf, Hp, H1, H2, H3, H4. f_equal. unfold stored. same_config. }
  cbn [snd]. unfold load_ini_outcome.
  match goal with |- context [ fs (configured ?x w) ] =>
    change (fs (configured x w)) with (fs w) end.
  rewrite Hf, Hp, H1, H2, H3, H4. f_equal. unfold configured. same_config.
Qed.

(** X5 (reloading is idempotent).  A second [POST /reload_settings], the
    file being what it was, gives the response of the first and leaves the
    world the first one left, whether the file is absent, accepted or
    rejected. *)
Theorem reload_idempotent (w : World) :
  serve POST_reload_settings (snd (serve POST_reload_settings w)) =
  serve POST_reload_settings w.
Proof.
  assert (H : forall w0, serve POST_reload_settings w0 =
                         match load_ini w0 with
                         | (Return _, w') => (reloaded, w')
                         | (Raise _, w') => (internal_server_error, w')
                         end).
  { intros w0. unfold serve, view, reload_settings, bind, jsonify, ret.
    destruct (load_ini w0) as [[[] | e] w']; reflexivity. }
  rewrite !H.
  assert (Hs : snd (match load_ini w with
                    | (Return _, w') => (reloaded, w')
                    | (Raise _, w') => (internal_server_error, w')
                    end) = snd (load_ini w)).
  { destruct (load_ini w) as [[[] | e] w']; reflexivity. }
  rewrite Hs, load_ini_twice. reflexivity.
Qed.

(** X6 (a reload that fails).  When [configparser] rejects the text of the
    file while reading it, [POST /reload_settings] answers 500 and the world
    is untouched.  When the text is read and [AppSettings] converts but the
    conversion of [Apps] raises, the answer is 500 as well, [config["Settings"]]
    is already the new section, and nothing else has changed: the other
    sections and the two file names are the old ones. *)
Theorem reload_failure_state (w : World) (f : file) :
  fs w !! INI_FILE = Some f ->
  (forall e, ConfigParser.read_text (content f) = inl e ->
     serve POST_reload_settings w = (internal_server_error, w)) /\
  (forall p s e,
     ConfigParser.read_text (content f) = inr p ->
     Spec.read_section p "AppSettings" = inr s ->
     Spec.read_section p "Apps" = inl e ->
     serve POST_reload_settings w =
       (internal_server_error, set_config (<["Settings" := s]> (config w)) w)).
Proof.
  intros Hf. unfold serve, view, reload_settings, bind. rewrite load_ini_cases.
  unfold load_ini_outcome. rewrite Hf. split.
  - intros e ->. reflexivity.
  - intros p s e -> -> ->. reflexivity.
Qed.

(** ** Snapshots that are rejected *)

(** A record the comprehension of [get_youtube] cannot extend raises
    [TypeError], whatever follows it. *)
Lemma comprehension_rejects items w :
  forallb (fun kv => Spec.lacks_url (snd kv)) items = false ->
  exists m, comprehension (fun kv => dict_url (fst kv) (snd kv)) items w =
            (Raise (TypeError m), w).
Proof.
  induction items as [ | [url v] items IH ]; intros H; [ discriminate | ].
  cbn [forallb snd] in H. cbn [comprehension]. unfold bind at 1.
  destruct (Spec.lacks_url v) eqn:Hv.
  - cbn [andb] in H. destruct (IH H) as [m Hm].
    destruct v as [ | | | | | | d ]; try discriminate.
    cbn [Spec.lacks_url] in Hv. apply negb_true_iff in Hv.
    unfold dict_url at 1. cbn [fst snd]. rewrite Hv. cbn [ret].
    rewrite (bind_raise _ _ _ _ _ Hm). eauto.
  - unfold dict_url at 1. cbn [fst snd].
    destruct v as [ | | | | | | d ]; cbn [raise]; eauto.
    cbn [Spec.lacks_url] in Hv. apply negb_false_iff in Hv. rewrite Hv.
    cbn [raise]. eauto.
Qed.

(** X7 (snapshots that are rejected).  When the snapshot file exists and
    its text is not a JSON object whose values are all objects without a
    member [url] (the text is not JSON, the value is not an object, one record
    is not an object or has a [url] already), [GET /api/youtube] answers 500
    and returns no part of the list; the world is unchanged. *)
Theorem youtube_snapshot_rejected (w : World) (f : file) :
  loaded w -> fs w !! youtube_path w = Some f ->
  snapshot_accepted (content f) = false ->
  serve GET_api_youtube w = (internal_server_error, w).
Proof.
  intros Hl Hf Hbad. pose proof (load_youtube_run w Hl) as Hy. rewrite Hf in Hy.
  unfold snapshot_accepted in Hbad. unfold serve, view, get_youtube.
  destruct (Json.loads (content f)) as [v | ].
  2:{ rewrite (bind_raise _ _ _ _ _ Hy). reflexivity. }
  rewrite (bind_return _ _ _ _ _ Hy).
  destruct v as [ | | | | | | items ]; try reflexivity.
  unfold bind at 1, dict_items, ret.
  destruct (comprehension_rejects items w Hbad) as [m Hm].
  rewrite (bind_raise _ _ _ _ _ Hm). reflexivity.
Qed.

(** ** Integer settings: [int(str(n)) = n] *)

Module StrFacts.
Import Str.








End StrFacts.






(** ** Options of [DEFAULT] *)








(** ** Before [load_ini] *)

(** X12 (the routes before [load_ini] has run).  In the module as imported
    (the [__main__] block has not run: the application is served by another
    WSGI server), [GET /api/weather] and [GET /api/youtube] answer 500 and
    fetch nothing, the four section routes answer 200 with the empty object,
    every [POST /run/<name>] answers 404; a reload whose file
    [configparser] accepts loads the configuration. *)
Theorem routes_before_load (w : World) :
  imported w ->
  serve GET_api_weather w = (internal_server_error, announced w) /\
  serve GET_api_youtube w = (internal_server_error, w) /\
  (serve GET_api_socials w = (empty_object 200, w) /\
   serve GET_api_settings w = (empty_object 200, w) /\
   serve GET_api_apps w = (empty_object 200, w) /\
   serve GET_api_links w = (empty_object 200, w)) /\
  (forall name, serve (POST_run name) w = (failed_with 404 "App not found", w)) /\
  (forall s, Spec.ini_sections w = inr s ->
     serve POST_reload_settings w = (reloaded, configured s w) /\
     loaded (configured s w)).
Proof.
  intros (Hc & Hy & Hw).
  split; [ | split; [ | split; [ | split ] ] ].
  - unfold serve, view, get_weather, get_weather_data_from_api,
      should_update_weather_file, os_path_exists, fspath, print, modify, get_world,
      bind. cbn. rewrite Hw. reflexivity.
  - unfold serve, view, get_youtube, load_youtube_from_file, read_file, fspath,
      try_except, get_world, bind. rewrite Hy. reflexivity.
  - unfold serve, view, get_socials, api_settings, api_apps, api_links, config_get,
      get_world, bind. rewrite Hc. repeat split.
  - intros name. unfold serve, view, run_app, config_get, get_world, bind.
    rewrite Hc. reflexivity.
  - intros s Hs. split; [ | apply configured_loaded ].
    unfold serve, view, reload_settings.
    rewrite (bind_return _ _ _ _ _ (load_ini_accepted w s Hs)). reflexivity.
Qed.

(** ** What is written to the cache *)


(** ** Plain configuration files are read as written *)

Module IniFacts.
Import Ini.
#[local] Arguments append !_ _ / : simpl nomatch.

Lemma app_assoc' (a b c : string) : (a +:+ b) +:+ c = a +:+ (b +:+ c).
Proof. induction a; cbn [append]; [ reflexivity | now rewrite IHa ]. Qed.

Lemma all_app p a b : all p (a +:+ b) = all p a && all p b.
Proof. induction a; cbn [append all]; [ reflexivity | now rewrite IHa, andb_assoc ]. Qed.

(** *** Reading a text line by line *)

Lemma splitlines_go_line l cur rest :
  one_line l = true ->
  Str.splitlines_go cur (l +:+ String "010" rest) =
    String.rev_app cur l :: Str.splitlines_go "" rest.
Proof.
  revert cur. induction l as [ | c l IH ]; intros cur H.
  - reflexivity.
  - cbn [one_line all] in H. apply andb_true_iff in H as [Hc H].
    unfold is_newline in Hc. apply negb_true_iff, orb_false_iff in Hc as [H1 H2].
    cbn [append Str.splitlines_go]. rewrite H1, H2. rewrite (IH _ H). reflexivity.
Qed.

Lemma splitlines_text l :
  forallb one_line l = true -> Str.splitlines (text_of l) = l.
Proof.
  unfold Str.splitlines. induction l as [ | x l IH ]; intros H; [ reflexivity | ].
  cbn [forallb] in H. apply andb_true_iff in H as [Hx H].
  cbn [text_of fold_right]. rewrite (splitlines_go_line _ _ _ Hx).
  cbn [String.rev_app]. f_equal. now apply IH.
Qed.

(** *** Stripping *)

Lemma lstrip_start p s :
  (forall c, p c = true -> Str.is_space c = false) ->
  starts_with p s = true -> Str.lstrip s = s.
Proof.
  intros Hp. destruct s as [ | c t ]; [ discriminate | ].
  cbn [starts_with Str.lstrip]. intros H. now rewrite (Hp _ H).
Qed.

Lemma indent_start p s :
  (forall c, p c = true -> Str.is_space c = false) ->
  starts_with p s = true -> Str.indent s = O.
Proof.
  intros Hp. destruct s as [ | c t ]; [ discriminate | ].
  cbn [starts_with Str.indent]. intros H. now rewrite (Hp _ H).
Qed.

Lemma rstrip_end s :
  ends_with (fun c => negb (Str.is_space c)) s = true -> Str.rstrip s = s.
Proof.
  induction s as [ | c t IH ]; [ discriminate | ].
  cbn [ends_with Str.rstrip]. destruct t as [ | c' t' ].
  - intros H. apply negb_true_iff in H. cbn [Str.rstrip]. now rewrite H.
  - intros H. rewrite (IH H). reflexivity.
Qed.

Lemma rstrip_app a b :
  Str.rstrip (a +:+ b) =
    match Str.rstrip b with
    | EmptyString => Str.rstrip a
    | t => a +:+ t
    end.
Proof.
  induction a as [ | c a IH ]; cbn [append].
  - destruct (Str.rstrip b); reflexivity.
  - cbn [Str.rstrip]. rewrite IH. destruct (Str.rstrip b) as [ | x y ]; [ reflexivity | ].
    destruct a; reflexivity.
Qed.

Lemma ends_with_weaken (p q : ascii -> bool) s :
  (forall c, p c = true -> q c = true) -> ends_with p s = true -> ends_with q s = true.
Proof.
  intros Hpq. induction s as [ | c t IH ]; [ discriminate | ].
  cbn [ends_with]. destruct t; [ apply Hpq | exact IH ].
Qed.

Lemma solid_not_space c : solid c = true -> Str.is_space c = false.
Proof. unfold solid. intros H. apply andb_true_iff in H as [_ H]. now apply negb_true_iff. Qed.

Lemma solid_not_space' c : solid c = true -> negb (Str.is_space c) = true.
Proof. unfold solid. intros H. now apply andb_true_iff in H as [_ H]. Qed.

Lemma opens_line_solid c : opens_line c = true -> solid c = true.
Proof.
  unfold opens_line. intros H.
  apply andb_true_iff in H as [H _]. apply andb_true_iff in H as [H _].
  now apply andb_true_iff in H as [H _].
Qed.

Lemma opens_line_not_space c : opens_line c = true -> Str.is_space c = false.
Proof. intros H. apply solid_not_space. now apply opens_line_solid. Qed.

(** *** Section headers and options *)

Lemma before_last_app c s : Str.before_last c (s +:+ String c "") = Some s.
Proof.
  induction s as [ | a s IH ]; cbn [append Str.before_last].
  - now rewrite Ascii.eqb_refl.
  - now rewrite IH.
Qed.

Lemma split_first_app p a c b :
  all (fun x => negb (p x)) a = true -> p c = true ->
  Str.split_first p (a +:+ String c b) = Some (a, b).
Proof.
  intros Ha Hc. induction a as [ | x a IH ]; cbn [append Str.split_first].
  - now rewrite Hc.
  - cbn [all] in Ha. apply andb_true_iff in Ha as [Hx Ha].
    apply negb_true_iff in Hx. rewrite Hx, (IH Ha). reflexivity.
Qed.

Lemma prefix_char (a c : ascii) t :
  Ascii.eqb c a = false -> String.prefix (String a "") (String c t) = false.
Proof.
  intros H. cbn [String.prefix]. destruct (ascii_dec a c) as [-> | ]; [ | reflexivity ].
  now rewrite Ascii.eqb_refl in H.
Qed.

Lemma match_section_other c t :
  Ascii.eqb c "[" = false -> ConfigParser.match_section (String c t) = None.
Proof.
  destruct c as [[] [] [] [] [] [] [] []]; intros H; try reflexivity; discriminate H.
Qed.

(** *** The lines of a plain file *)

Lemma strip_header name : Str.strip (header name) = header name.
Proof.
  unfold Str.strip, header. cbn [append Str.lstrip].
  change (Str.is_space "[") with false. cbv iota.
  change (String "[" (name +:+ "]")) with ("[" +:+ (name +:+ "]")).
  rewrite !rstrip_app. change (Str.rstrip "]") with "]".
  destruct name; reflexivity.
Qed.

Lemma contains_get_none {A} (d : list (string * A)) k :
  existsb (String.eqb k) (map fst d) = false -> Dict.get d k = None.
Proof.
  induction d as [ | [k' v] d IH ]; cbn [map fst existsb Dict.get]; [ reflexivity | ].
  intros H. apply orb_false_iff in H as [H1 H2]. rewrite String.eqb_sym in H1.
  rewrite H1. now apply IH.
Qed.

Lemma existsb_raw k (secs : list (string * section)) :
  existsb (String.eqb k) (map fst (map raw secs)) = existsb (String.eqb k) (map fst secs).
Proof. rewrite map_map. reflexivity. Qed.

Lemma read_header lineno name st done :
  read_so_far st done -> plain_name name = true ->
  existsb (String.eqb name) (map fst done) = false ->
  exists st',
    ConfigParser.read_line lineno (header name) st = inr st' /\
    read_so_far st' (done ++ [(name, [])]) /\
    ConfigParser.cursect st' = Some name.
Proof.
  intros (Hs & Hd & Hp & Ha) Hn Hfresh.
  unfold plain_name in Hn. apply andb_true_iff in Hn as [Hn Hline].
  apply andb_true_iff in Hn as [Hne Hdef]. apply negb_true_iff in Hne, Hdef.
  unfold ConfigParser.read_line. rewrite strip_header.
  change (ConfigParser.is_comment (header name)) with false. cbv iota zeta.
  change (Str.indent (header name)) with O.
  assert (Hm : ConfigParser.match_section (header name) = Some name).
  { unfold ConfigParser.match_section, header. cbn [append].
    rewrite before_last_app. destruct name; [ discriminate | reflexivity ]. }
  assert (Hc : Dict.contains (ConfigParser.sections st) name = false).
  { unfold Dict.contains. rewrite Hs, contains_get_none; [ reflexivity | ].
    now rewrite existsb_raw. }
  unfold header at 1. cbn [append]. fold (header name).
  assert (Hcont :
            match ConfigParser.cursect st, ConfigParser.truthy (ConfigParser.optname st) with
            | Some name0, Some opt =>
                if (ConfigParser.indent_level st <? 0)%nat
                then Some (ConfigParser.append_value st name0 opt (header name))
                else None
            | _, _ => None
            end = None).
  { destruct (ConfigParser.cursect st); [ | reflexivity ].
    destruct (ConfigParser.truthy _); reflexivity. }
  rewrite Hcont, Hm, Hc, Hdef.
  eexists. split; [ reflexivity | ]. split; [ | reflexivity ].
  repeat split; cbn.
  - rewrite Hs, map_app. reflexivity.
  - exact Hd.
  - exact Hp.
  - intros n k H. unfold ConfigParser.added in H. cbn in H.
    rewrite andb_false_r in H. cbn [orb] in H.
    destruct (Ha n k H) as (d & Hin & Hk). exists d. split; [ | exact Hk ].
    apply in_or_app. now left.
Qed.

Lemma get_app_fresh {A} (a b : list (string * A)) k :
  existsb (String.eqb k) (map fst a) = false -> Dict.get (a ++ b)%list k = Dict.get b k.
Proof.
  induction a as [ | [k' v] a IH ]; cbn [map fst existsb Dict.get app]; [ reflexivity | ].
  intros H. apply orb_false_iff in H as [H1 H2]. rewrite String.eqb_sym in H1.
  rewrite H1. now apply IH.
Qed.

Lemma set_app_fresh {A} (a b : list (string * A)) k x :
  existsb (String.eqb k) (map fst a) = false ->
  Dict.set (a ++ b)%list k x = (a ++ Dict.set b k x)%list.
Proof.
  induction a as [ | [k' v] a IH ]; cbn [map fst existsb Dict.set app]; [ reflexivity | ].
  intros H. apply orb_false_iff in H as [H1 H2]. rewrite String.eqb_sym in H1.
  rewrite H1, (IH H2). reflexivity.
Qed.

Lemma set_new {A} (a : list (string * A)) k x :
  existsb (String.eqb k) (map fst a) = false -> Dict.set a k x = (a ++ [(k, x)])%list.
Proof.
  intros H. rewrite <- (app_nil_r a) at 1. now rewrite set_app_fresh.
Qed.


Lemma plain_value_strips v :
  plain_value v = true -> Str.lstrip v = v /\ Str.rstrip v = v.
Proof.
  unfold plain_value. intros H. apply andb_true_iff in H as [_ H].
  destruct v as [ | c t ]; [ split; reflexivity | ].
  apply andb_true_iff in H as [H1 H2]. split.
  - apply (lstrip_start solid); [ apply solid_not_space | exact H1 ].
  - apply rstrip_end. eapply ends_with_weaken; [ | exact H2 ]. apply solid_not_space'.
Qed.

Lemma plain_key_facts k :
  plain_key k = true ->
  exists c t, k = String c t /\ opens_line c = true /\ Str.rstrip k = k /\
              all (fun x => negb (ConfigParser.is_delimiter x)) k = true.
Proof.
  unfold plain_key. intros H.
  apply andb_true_iff in H as [H Hd]. apply andb_true_iff in H as [H _].
  apply andb_true_iff in H as [Hs He].
  destruct k as [ | c t ]; [ discriminate | ]. exists c, t.
  repeat split; try assumption.
  apply rstrip_end. eapply ends_with_weaken; [ | exact He ]. apply solid_not_space'.
Qed.

Lemma strip_option k v :
  plain_key k = true -> plain_value v = true ->
  Str.strip (option_line (k, v)) = k +:+ (" =" +:+ value_side v).
Proof.
  intros Hk Hv. destruct (plain_key_facts k Hk) as (c & t & -> & Hc & Hr & _).
  destruct (plain_value_strips v Hv) as [_ Hrv].
  unfold Str.strip, option_line. cbn [fst snd].
  rewrite (lstrip_start opens_line); [ | apply opens_line_not_space | exact Hc ].
  rewrite rstrip_app.
  change (" = " +:+ v) with (" =" +:+ (" " +:+ v)).
  rewrite (rstrip_app " ="), (rstrip_app " "), Hrv.
  destruct v; reflexivity.
Qed.

Lemma strip_value_side v : plain_value v = true -> Str.strip (value_side v) = v.
Proof.
  intros Hv. destruct (plain_value_strips v Hv) as [Hl Hr].
  destruct v as [ | c t ]; [ reflexivity | ].
  change (Str.strip (value_side (String c t)))
    with (Str.rstrip (Str.lstrip (String c t))).
  rewrite Hl. exact Hr.
Qed.

Lemma match_option_plain k v :
  plain_key k = true ->
  ConfigParser.match_option (k +:+ (" =" +:+ value_side v)) = Some (k, value_side v).
Proof.
  intros Hk. destruct (plain_key_facts k Hk) as (c & t & E & Hc & Hr & Hd).
  unfold ConfigParser.match_option.
  change (" =" +:+ value_side v) with (" " +:+ String "=" (value_side v)).
  rewrite <- app_assoc'.
  rewrite split_first_app; [ | rewrite all_app, Hd; reflexivity | reflexivity ].
  rewrite rstrip_app. change (Str.rstrip " ") with "". now rewrite Hr.
Qed.

Lemma added_cons st e x :
  existsb (fun y => String.eqb (fst y) (fst e) &&
                    match snd y, snd e with
                    | Some a, Some b => String.eqb a b
                    | None, None => true
                    | _, _ => false
                    end) (x :: ConfigParser.elements_added st)
  = (String.eqb (fst x) (fst e) &&
     match snd x, snd e with
     | Some a, Some b => String.eqb a b
     | None, None => true
     | _, _ => false
     end) || ConfigParser.added st e.
Proof. reflexivity. Qed.

Lemma in_existsb k (l : list string) : In k l -> existsb (String.eqb k) l = true.
Proof.
  intros H. apply existsb_exists. exists k. split; [ exact H | apply String.eqb_refl ].
Qed.

Lemma read_option lineno name k v st done d1 :
  read_so_far st (done ++ [(name, d1)]) ->
  ConfigParser.cursect st = Some name ->
  String.eqb name ConfigParser.default_section = false ->
  existsb (String.eqb name) (map fst done) = false ->
  plain_key k = true -> plain_value v = true ->
  existsb (String.eqb k) (map fst d1) = false ->
  exists st',
    ConfigParser.read_line lineno (option_line (k, v)) st = inr st' /\
    read_so_far st' (done ++ [(name, (d1 ++ [(k, v)])%list)]) /\
    ConfigParser.cursect st' = Some name.
Proof.
  intros (Hs & Hd & Hp & Ha) Hcur Hdef Hfresh Hk Hv Hnew.
  destruct (plain_key_facts k Hk) as (c & t & Ek & Hc & Hr & Hdel).
  assert (Hsp : Str.is_space c = false) by now apply opens_line_not_space.
  assert (Hc' := Hc). unfold opens_line in Hc'.
  apply andb_true_iff in Hc' as [Hc' Hbr]. apply andb_true_iff in Hc' as [Hc' Hsemi].
  apply andb_true_iff in Hc' as [_ Hhash].
  apply negb_true_iff in Hbr, Hsemi, Hhash.
  unfold ConfigParser.read_line. rewrite (strip_option k v Hk Hv).
  assert (Hcom : ConfigParser.is_comment (k +:+ (" =" +:+ value_side v)) = false).
  { subst k. unfold ConfigParser.is_comment, Str.startswith. cbn [append].
    now rewrite !prefix_char. }
  rewrite Hcom. cbv zeta.
  assert (Hind : Str.indent (option_line (k, v)) = O).
  { subst k. unfold option_line. cbn [fst snd append Str.indent]. now rewrite Hsp. }
  rewrite Hind.
  assert (Hsec : ConfigParser.match_section (k +:+ (" =" +:+ value_side v)) = None).
  { subst k. cbn [append]. now apply match_section_other. }
  assert (Hopt := match_option_plain k v Hk).
  assert (Hnot : ConfigParser.added st (name, Some k) = false).
  { destruct (ConfigParser.added st (name, Some k)) eqn:E; [ | reflexivity ].
    destruct (Ha _ _ E) as (d & Hin & Hin').
    apply in_app_or in Hin as [Hin | [Hin | []]].
    - apply (in_map fst) in Hin. apply in_existsb in Hin. cbn [fst] in Hin. congruence.
    - injection Hin as <-. apply in_existsb in Hin'. congruence. }
  remember (k +:+ (" =" +:+ value_side v)) as value eqn:Evalue.
  assert (Hne : exists c' t', value = String c' t').
  { subst value k. cbn [append]. eauto. }
  destruct Hne as (c' & t' & Eshape). rewrite Eshape. cbv iota. rewrite <- Eshape.
  rewrite Hcur.
  assert (Hcont :
            match ConfigParser.truthy (ConfigParser.optname st) with
            | Some opt =>
                if (ConfigParser.indent_level st <? 0)%nat
                then Some (ConfigParser.append_value st name opt value)
                else None
            | None => None
            end = None).
  { destruct (ConfigParser.truthy _); reflexivity. }
  rewrite Hcont, Hsec, Hopt, Hnot.
  eexists. split; [ reflexivity | ].
  assert (Hcurrent : Dict.get (ConfigParser.sections st) name =
                     Some (map (fun kv => (fst kv, [snd kv])) d1)).
  { rewrite Hs, map_app, get_app_fresh by now rewrite existsb_raw.
    cbn [map raw fst snd Dict.get]. now rewrite String.eqb_refl. }
  unfold ConfigParser.with_current, ConfigParser.current. cbn. rewrite Hdef. cbn.
  unfold Dict.get_default. rewrite Hcurrent.
  split; [ | reflexivity ].
  repeat split; cbn.
  - rewrite Hs, map_app, set_app_fresh by now rewrite existsb_raw.
    rewrite map_app. f_equal. cbn [map raw fst snd Dict.set].
    rewrite String.eqb_refl. rewrite set_new.
    + unfold raw. cbn [fst snd]. rewrite map_app, (strip_value_side v Hv). reflexivity.
    + rewrite map_map. exact Hnew.
  - exact Hd.
  - rewrite Hp. subst k. reflexivity.
  - intros n k0 H. unfold ConfigParser.added in H. cbn in H.
    apply orb_true_iff in H as [H | H].
    + apply andb_true_iff in H as [H1 H2].
      apply String.eqb_eq in H1, H2. subst n k0.
      exists (d1 ++ [(k, v)])%list. split.
      * apply in_or_app. right. now left.
      * rewrite map_app. apply in_or_app. right. now left.
    + destruct (Ha n k0 H) as (d & Hin & Hin').
      apply in_app_or in Hin as [Hin | [Hin | []]].
      * exists d. split; [ apply in_or_app; now left | exact Hin' ].
      * injection Hin as <- <-. exists (d1 ++ [(k, v)])%list. split.
        -- apply in_or_app. right. now left.
        -- rewrite map_app. apply in_or_app. now left.
Qed.

(** *** The whole file *)

Lemma distinct_NoDup l : distinct l = true -> List.NoDup l.
Proof.
  induction l as [ | x l IH ]; intros H; [ constructor | ].
  cbn [distinct] in H. apply andb_true_iff in H as [Hx H].
  constructor; [ | now apply IH ].
  intros Hin. apply in_existsb in Hin. rewrite Hin in Hx. discriminate.
Qed.

Lemma not_in_existsb k (l : list string) : ~ In k l -> existsb (String.eqb k) l = false.
Proof.
  intros H. destruct (existsb (String.eqb k) l) eqn:E; [ | reflexivity ].
  apply existsb_exists in E as (x & Hin & Hx). apply String.eqb_eq in Hx. now subst.
Qed.

Lemma fresh_in_front (a : list string) x b :
  List.NoDup (a ++ x :: b) -> existsb (String.eqb x) a = false.
Proof.
  intros H. apply not_in_existsb. intros Hin.
  apply List.NoDup_remove_2 in H. apply H. apply in_or_app. now left.
Qed.

Lemma read_options name d2 :
  forall lineno rest st done d1,
    read_so_far st (done ++ [(name, d1)]) ->
    ConfigParser.cursect st = Some name ->
    String.eqb name ConfigParser.default_section = false ->
    existsb (String.eqb name) (map fst done) = false ->
    forallb (fun kv => plain_key (fst kv) && plain_value (snd kv)) d2 = true ->
    List.NoDup (map fst (d1 ++ d2)) ->
    exists st' lineno',
      ConfigParser.read_lines lineno (map option_line d2 ++ rest) st =
        ConfigParser.read_lines lineno' rest st' /\
      read_so_far st' (done ++ [(name, (d1 ++ d2)%list)]).
Proof.
  induction d2 as [ | [k v] d2 IH ]; intros lineno rest st done d1 Hst Hcur Hdef Hfresh Hpl Hnd.
  - exists st, lineno. rewrite app_nil_r. split; [ reflexivity | exact Hst ].
  - cbn [forallb fst snd] in Hpl. apply andb_true_iff in Hpl as [Hkv Hpl].
    apply andb_true_iff in Hkv as [Hk Hv].
    assert (Hnew : existsb (String.eqb k) (map fst d1) = false).
    { rewrite map_app in Hnd. cbn [map fst] in Hnd. now apply fresh_in_front in Hnd. }
    destruct (read_option lineno name k v st done d1 Hst Hcur Hdef Hfresh Hk Hv Hnew)
      as (st1 & Hread & Hst1 & Hcur1).
    destruct (IH (S lineno) rest st1 done (d1 ++ [(k, v)])%list Hst1 Hcur1 Hdef Hfresh Hpl)
      as (st' & lineno' & Hrest & Hst').
    { rewrite <- app_assoc. exact Hnd. }
    exists st', lineno'. split.
    + cbn [map app ConfigParser.read_lines]. rewrite Hread. exact Hrest.
    + rewrite <- app_assoc in Hst'. exact Hst'.
Qed.

Lemma read_sections secs :
  forall lineno st done,
    read_so_far st done ->
    forallb plain_section secs = true ->
    List.NoDup (map fst (done ++ secs)) ->
    exists st',
      ConfigParser.read_lines lineno (file_lines secs) st = inr st' /\
      read_so_far st' (done ++ secs).
Proof.
  induction secs as [ | [name d] secs IH ]; intros lineno st done Hst Hpl Hnd.
  - exists st. rewrite app_nil_r. split; [ reflexivity | exact Hst ].
  - cbn [forallb] in Hpl. apply andb_true_iff in Hpl as [Hsec Hpl].
    unfold plain_section in Hsec. cbn [fst snd] in Hsec.
    apply andb_true_iff in Hsec as [Hsec Hdist]. apply andb_true_iff in Hsec as [Hname Hopts].
    assert (Hfresh : existsb (String.eqb name) (map fst done) = false).
    { rewrite map_app in Hnd. cbn [map fst] in Hnd. now apply fresh_in_front in Hnd. }
    assert (Hdef : String.eqb name ConfigParser.default_section = false).
    { unfold plain_name in Hname. apply andb_true_iff in Hname as [Hname _].
      apply andb_true_iff in Hname as [_ Hname]. now apply negb_true_iff. }
    destruct (read_header lineno name st done Hst Hname Hfresh) as (st1 & Hread & Hst1 & Hcur1).
    destruct (read_options name d (S lineno) (file_lines secs) st1 done [] Hst1 Hcur1
                Hdef Hfresh Hopts) as (st2 & lineno2 & Hrest & Hst2).
    { cbn [app]. now apply distinct_NoDup. }
    cbn [app] in Hst2.
    destruct (IH lineno2 st2 (done ++ [(name, d)])%list Hst2 Hpl) as (st' & Hfin & Hst').
    { rewrite <- app_assoc. exact Hnd. }
    exists st'. split.
    + unfold file_lines. cbn [flat_map]. fold (file_lines secs).
      unfold section_lines. cbn [fst snd app ConfigParser.read_lines]. rewrite Hread, Hrest. exact Hfin.
    + rewrite <- app_assoc in Hst'. exact Hst'.
Qed.

Lemma one_line_app a b : one_line (a +:+ b) = one_line a && one_line b.
Proof. apply all_app. Qed.

Lemma plain_lines secs :
  forallb plain_section secs = true -> forallb one_line (file_lines secs) = true.
Proof.
  induction secs as [ | [name d] secs IH ]; intros H; [ reflexivity | ].
  cbn [forallb] in H. apply andb_true_iff in H as [Hsec H].
  unfold file_lines. cbn [flat_map]. fold (file_lines secs).
  rewrite forallb_app, (IH H), andb_true_r.
  unfold plain_section in Hsec. cbn [fst snd] in Hsec.
  apply andb_true_iff in Hsec as [Hsec _]. apply andb_true_iff in Hsec as [Hname Hopts].
  unfold section_lines. cbn [fst snd forallb]. apply andb_true_iff. split.
  - unfold plain_name in Hname. apply andb_true_iff in Hname as [_ Hname].
    unfold header. rewrite !one_line_app, Hname. reflexivity.
  - clear -Hopts. induction d as [ | [k v] d IH ]; [ reflexivity | ].
    cbn [forallb fst snd] in Hopts. apply andb_true_iff in Hopts as [Hkv Hopts].
    apply andb_true_iff in Hkv as [Hk Hv].
    cbn [map forallb]. rewrite (IH Hopts), andb_true_r.
    unfold option_line. cbn [fst snd]. rewrite !one_line_app.
    unfold plain_key in Hk. apply andb_true_iff in Hk as [Hk _].
    apply andb_true_iff in Hk as [_ Hk]. rewrite Hk.
    unfold plain_value in Hv. apply andb_true_iff in Hv as [Hv _].
    apply andb_true_iff in Hv as [Hv _]. rewrite Hv. reflexivity.
Qed.

Lemma join_values_raw d :
  forallb (fun kv => plain_key (fst kv) && plain_value (snd kv)) d = true ->
  ConfigParser.join_values (map (fun kv => (fst kv, [snd kv])) d) = d.
Proof.
  induction d as [ | [k v] d IH ]; intros H; [ reflexivity | ].
  cbn [forallb fst snd] in H. apply andb_true_iff in H as [Hkv H].
  apply andb_true_iff in Hkv as [_ Hv].
  unfold ConfigParser.join_values in *. cbn [map fst snd Str.join].
  rewrite (IH H). destruct (plain_value_strips v Hv) as [_ ->]. reflexivity.
Qed.

Lemma finish_plain st secs :
  read_so_far st secs -> forallb plain_section secs = true ->
  ConfigParser.finish st =
    inr {| ConfigParser.p_sections := secs; ConfigParser.p_defaults := [] |}.
Proof.
  intros (Hs & Hd & Hp & _) Hpl. unfold ConfigParser.finish. rewrite Hp, Hs, Hd.
  f_equal. f_equal. clear -Hpl.
  induction secs as [ | [name d] secs IH ]; [ reflexivity | ].
  cbn [forallb] in Hpl. apply andb_true_iff in Hpl as [Hsec Hpl].
  unfold plain_section in Hsec. cbn [fst snd] in Hsec.
  apply andb_true_iff in Hsec as [Hsec _]. apply andb_true_iff in Hsec as [_ Hopts].
  cbn [map raw fst snd]. rewrite (IH Hpl), (join_values_raw d Hopts). reflexivity.
Qed.

(** The text of a plain file is read as its sections. *)
Lemma read_text_plain secs :
  plain secs = true ->
  ConfigParser.read_text (text secs) =
    inr {| ConfigParser.p_sections := secs; ConfigParser.p_defaults := [] |}.
Proof.
  unfold plain. intros H. apply andb_true_iff in H as [Hpl Hd].
  unfold ConfigParser.read_text, text.
  rewrite (splitlines_text _ (plain_lines secs Hpl)).
  destruct (read_sections secs 1%nat ConfigParser.empty [] ) as (st & Hread & Hst).
  - repeat split. intros n k H. discriminate H.
  - exact Hpl.
  - cbn [app]. now apply distinct_NoDup.
  - rewrite Hread. cbn [app] in Hst. now apply finish_plain.
Qed.

(** *** Values without a percent sign are their own interpolation *)

Lemma interpolate_text_other fuel interp c t :
  Ascii.eqb c "%" = false ->
  ConfigParser.interpolate_text (S fuel) interp (String c t) =
    match ConfigParser.interpolate_text fuel interp t with
    | inr s => inr (String c s)
    | inl e => inl e
    end.
Proof.
  destruct c as [[] [] [] [] [] [] [] []]; intros H; try reflexivity; discriminate H.
Qed.

Lemma interpolate_text_plain interp v :
  all (fun c => negb (Ascii.eqb c "%")) v = true ->
  forall fuel, (String.length v < fuel)%nat ->
               ConfigParser.interpolate_text fuel interp v = inr v.
Proof.
  intros Hv. induction v as [ | c t IH ]; intros fuel Hf.
  - destruct fuel; [ lia | reflexivity ].
  - cbn [all] in Hv. apply andb_true_iff in Hv as [Hc Hv]. apply negb_true_iff in Hc.
    destruct fuel as [ | fuel ]; [ lia | ].
    rewrite (interpolate_text_other _ _ _ _ Hc), (IH Hv); [ reflexivity | ].
    cbn [String.length] in Hf. lia.
Qed.

Lemma get_all_plain name m keys :
  forallb (fun kv => plain_key (fst kv) && plain_value (snd kv)) keys = true ->
  ConfigParser.get_all name m keys = inr keys.
Proof.
  induction keys as [ | [k v] keys IH ]; intros H; [ reflexivity | ].
  cbn [forallb fst snd] in H. apply andb_true_iff in H as [Hkv H].
  apply andb_true_iff in Hkv as [_ Hv].
  unfold plain_value in Hv. apply andb_true_iff in Hv as [Hv _].
  apply andb_true_iff in Hv as [_ Hv].
  cbn [ConfigParser.get_all].
  unfold ConfigParser.MAX_INTERPOLATION_DEPTH. cbn [ConfigParser.interpolate].
  rewrite (interpolate_text_plain _ v Hv) by lia. now rewrite (IH H).
Qed.

Lemma get_in {A} (d : list (string * A)) k v : Dict.get d k = Some v -> In (k, v) d.
Proof.
  induction d as [ | [k' v'] d IH ]; cbn [Dict.get]; [ discriminate | ].
  destruct (String.eqb_spec k' k) as [-> | ].
  - intros [= ->]. now left.
  - intros H. right. now apply IH.
Qed.

Lemma read_section_plain secs name :
  forallb plain_section secs = true ->
  String.eqb name ConfigParser.default_section = false ->
  Spec.read_section
    {| ConfigParser.p_sections := secs; ConfigParser.p_defaults := [] |} name
  = inr (Dict.get_default secs name []).
Proof.
  intros Hpl Hdef. unfold Spec.read_section, ConfigParser.contains. rewrite Hdef.
  cbn [orb ConfigParser.p_sections]. unfold Dict.contains, Dict.get_default.
  destruct (Dict.get secs name) as [d | ] eqn:Hg; [ | reflexivity ].
  unfold ConfigParser.section_dict, ConfigParser.unify.
  cbn [ConfigParser.p_sections ConfigParser.p_defaults fold_left].
  unfold Dict.get_default. rewrite Hg. apply get_all_plain.
  apply get_in in Hg. rewrite forallb_forall in Hpl. specialize (Hpl _ Hg).
  unfold plain_section in Hpl. cbn [fst snd] in Hpl.
  apply andb_true_iff in Hpl as [Hpl _]. now apply andb_true_iff in Hpl as [_ Hpl].
Qed.

Lemma parse_ini_plain secs :
  plain secs = true -> Spec.parse_ini (text secs) = inr (sections_of secs).
Proof.
  intros H. unfold Spec.parse_ini. rewrite (read_text_plain secs H).
  unfold plain in H. apply andb_true_iff in H as [Hpl _].
  rewrite !(read_section_plain secs _ Hpl) by reflexivity. reflexivity.
Qed.

End IniFacts.

(** X13 (a configuration file in plain form is loaded as written).  Let
    [config.ini] consist of header lines [[name]] and option lines
    [key = value], the names distinct and not [DEFAULT], the keys of a section
    distinct, starting and ending with an ASCII character that is not
    whitespace, free of [=], [:] and line breaks and not starting with [#],
    [;] or [[], the values free of [%] and line breaks and, unless empty,
    starting and ending with an ASCII character that is not whitespace.  Then
    [load_ini] returns, and every one of the four sections is stored exactly
    as written: the keys in the case and the order of the file, the values
    unchanged, a section the file does not have as the empty mapping.  The
    four section routes then answer 200 with these mappings. *)
Theorem plain_file_loads (w : World) (f : file) (secs : list (string * section)) :
  Ini.plain secs = true -> fs w !! INI_FILE = Some f -> content f = Ini.text secs ->
  load_ini w = (Return tt, configured (Ini.sections_of secs) w) /\
  (let w' := snd (load_ini w) in
   serve GET_api_settings w' =
     ({| status := 200;
         payload := Jsonified (section_value (Dict.get_default secs "AppSettings" [])) |}, w') /\
   serve GET_api_apps w' =
     ({| status := 200;
         payload := Jsonified (section_value (Dict.get_default secs "Apps" [])) |}, w') /\
   serve GET_api_links w' =
     ({| status := 200;
         payload := Jsonified (section_value (Dict.get_default secs "Links" [])) |}, w') /\
   serve GET_api_socials w' =
     ({| status := 200;
         payload := Jsonified (section_value (Dict.get_default secs "Socials" [])) |}, w')).
Proof.
  intros Hpl Hf Hc.
  assert (Hi : Spec.ini_sections w = inr (Ini.sections_of secs)).
  { unfold Spec.ini_sections. rewrite Hf, Hc. now apply IniFacts.parse_ini_plain. }
  rewrite (load_ini_accepted w _ Hi). split; [ reflexivity | ].
  cbn [snd]. destruct (configured_lookup (Ini.sections_of secs) w) as (H1 & H2 & H3 & H4).
  unfold serve, view, get_socials, api_settings, api_apps, api_links.
  rewrite !(bind_return _ _ _ _ _ (config_get_run _ _)), H1, H2, H3, H4.
  repeat split.
Qed.

(** ** What the settings route shows; the snapshot file, encoded and decoded *)



(** X16 (round trip of the snapshot file).  When the snapshot file holds
    [json.dumps] of a mapping from URLs to records, each record a mapping
    without the key [url], [GET /api/youtube] answers 200 with the list of
    the records in the order of the mapping, each with its URL added in
    front under [url]; nothing is lost or reordered by the encoding and the
    decoding, and the world is unchanged. *)
Theorem youtube_round_trip (w : World) (f : file) (items : list (string * pyval)) :
  loaded w -> fs w !! youtube_path w = Some f ->
  content f = Json.dumps (PyDict items) ->
  Json.well_formed (PyDict items) = true ->
  forallb (fun kv => Spec.lacks_url (snd kv)) items = true ->
  serve GET_api_youtube w =
    ({| status := 200; payload := Jsonified (PyList (map Spec.extend items)) |}, w).
Proof.
  intros Hl Hf Hc Hwf Hok.
  pose proof (load_youtube_run w Hl) as Hy.
  rewrite Hf, Hc, (JsonFacts.loads_dumps _ Hwf) in Hy.
  unfold serve, view, get_youtube.
  rewrite (bind_return _ _ _ _ _ Hy).
  unfold bind at 1, dict_items, ret.
  rewrite (bind_return _ _ _ _ _ (comprehension_extend items w Hok)).
  reflexivity.
Qed.

(** ** Witnesses and counterexamples *)

Lemma example_loaded files now api : loaded (example_world files now api).
Proof. repeat split; eexists; vm_compute; reflexivity. Qed.


(** Witness of C2: the stale cache survives a transport failure. *)
Lemma fetch_failure_keeps_cache_witness :
  fst (get_weather_data_from_api
         (example_world (cached (Json.dumps lodz)) 600000000 api_down))
  = Return (error_value "connection refused") /\
  fs (snd (get_weather_data_from_api
         (example_world (cached (Json.dumps lodz)) 600000000 api_down)))
  = cached (Json.dumps lodz).
Proof.
  apply (fetch_failure_keeps_cache
           (example_world (cached (Json.dumps lodz)) 600000000 api_down)
           [("error", PyStr "connection refused")]).
  - apply example_loaded.
  - vm_compute. discriminate.
  - vm_compute. reflexivity.
  - vm_compute. reflexivity.
Defined.





(** Counterexample to C6 as stated: a registered application whose path
    names no file.  The shell is started, the call does not raise, and the
    response is 200, not 500. *)
Lemma run_app_invalid_path_counterexample :
  Dict.get (apps_of (example_world ∅ 0 api_down)) "ghost" = Some "/no/such/path" /\
  fs (example_world ∅ 0 api_down) !! "/no/such/path" = None /\
  fst (serve (POST_run "ghost") (example_world ∅ 0 api_down)) = launched /\
  status (fst (serve (POST_run "ghost") (example_world ∅ 0 api_down))) <> 500.
Proof.
  repeat split; try (vm_compute; reflexivity).
  vm_compute. discriminate.
Qed.



(** Witness of C8: no file at all. *)
Lemma missing_config_defaults_witness :
  fst (load_ini (boot_world ∅)) = Return tt /\
  fst (serve GET_api_socials (snd (load_ini (boot_world ∅)))) = empty_object 200 /\
  fst (main (boot_world ∅)) = Return ("0.0.0.0", 5000).
Proof.
  destruct (missing_config_defaults (boot_world ∅))
    as (Hload & _ & (Hsocials & _) & Hmain).
  - vm_compute. reflexivity.
  - repeat split; assumption.
Defined.

(** Counterexample to C9 as stated: a configuration file whose first line
    comes before any section header. *)
Lemma reload_malformed_counterexample :
  ConfigParser.read_text "x" = inl (ConfigParser.MissingSectionHeaderError 1) /\
  fst (serve POST_reload_settings (boot_world (ini_file "x"))) = internal_server_error /\
  status (fst (serve POST_reload_settings (boot_world (ini_file "x")))) <> 200.
Proof.
  repeat split; try (vm_compute; reflexivity).
  vm_compute. discriminate.
Qed.


(** The server started without a configuration file: the world after
    [main] is a running one, and loaded. *)
Lemma running_loaded_witness :
  running (snd (main (boot_world ∅))) /\ loaded (snd (main (boot_world ∅))).
Proof.
  assert (H : running (snd (main (boot_world ∅)))).
  { apply (started (boot_world ∅) ("0.0.0.0", 5000)). vm_compute. reflexivity. }
  split; [ exact H | exact (running_loaded _ H) ].
Defined.

(** Witness of X2: launching an application leaves the configuration. *)
Lemma config_changes_only_on_reload_witness :
  same_globals (example_world ∅ 0 api_down)
               (snd (serve (POST_run "ghost") (example_world ∅ 0 api_down))).
Proof. apply config_changes_only_on_reload. discriminate. Defined.

(** Witness of X4: a request for the weather, the cache missing. *)
Lemma files_and_requests_witness :
  (forall p,
     fs (snd (serve GET_api_weather (example_world ∅ 0 (api_replies 200 (inr lodz))))) !! p
     <> fs (example_world ∅ 0 (api_replies 200 (inr lodz))) !! p ->
     GET_api_weather = GET_api_weather /\
     Spec.weather_cache (example_world ∅ 0 (api_replies 200 (inr lodz))) <> Spec.FRESH /\
     p = weather_path (example_world ∅ 0 (api_replies 200 (inr lodz)))) /\
  (requests_sent (snd (serve GET_api_weather
                         (example_world ∅ 0 (api_replies 200 (inr lodz)))))
   = requests_sent (example_world ∅ 0 (api_replies 200 (inr lodz))) \/
   GET_api_weather = GET_api_weather /\
   Spec.weather_cache (example_world ∅ 0 (api_replies 200 (inr lodz))) <> Spec.FRESH /\
   requests_sent (snd (serve GET_api_weather
                         (example_world ∅ 0 (api_replies 200 (inr lodz)))))
   = (requests_sent (example_world ∅ 0 (api_replies 200 (inr lodz)))
      ++ [Spec.request_url (example_world ∅ 0 (api_replies 200 (inr lodz)))])%list).
Proof.
  exact (files_and_requests GET_api_weather
           (example_world ∅ 0 (api_replies 200 (inr lodz))) (example_loaded _ _ _)).
Defined.

(** Witness of X6: the percent sign in [Apps] stops the reload after the
    settings have been replaced; the weather file name is the old one. *)
Lemma reload_failure_state_witness :
  serve POST_reload_settings (example_world (ini_file half_bad_ini) 0 api_down)
  = (internal_server_error,
     set_config (<["Settings" := [("WeatherJSON", "new.json")]]> example_config)
       (example_world (ini_file half_bad_ini) 0 api_down)).
Proof.
  destruct (reload_failure_state
              (example_world (ini_file half_bad_ini) 0 api_down)
              {| content := half_bad_ini; mtime := 0 |}) as [_ H].
  - vm_compute. reflexivity.
  - apply (H {| ConfigParser.p_sections :=
                  [("AppSettings", [("WeatherJSON", "new.json")]);
                   ("Apps", [("x", "%")])];
                ConfigParser.p_defaults := [] |}
             [("WeatherJSON", "new.json")]
             (ConfigParser.InterpolationSyntaxError "Apps" "x")).
    + vm_compute. reflexivity.
    + vm_compute. reflexivity.
    + vm_compute. reflexivity.
Defined.

(** Witness of X7: a snapshot that is a list. *)
Lemma youtube_snapshot_rejected_witness :
  serve GET_api_youtube (example_world (youtube_file (PyList [])) 0 api_down)
  = (internal_server_error, example_world (youtube_file (PyList [])) 0 api_down).
Proof.
  apply (youtube_snapshot_rejected _ {| content := Json.dumps (PyList []); mtime := 0 |}).
  - apply example_loaded.
  - vm_compute. reflexivity.
  - vm_compute. reflexivity.
Defined.




(** Witness of X12: the module as imported, no file at all. *)
Lemma routes_before_load_witness :
  serve GET_api_weather (boot_world ∅) = (internal_server_error, announced (boot_world ∅)) /\
  serve GET_api_apps (boot_world ∅) = (empty_object 200, boot_world ∅).
Proof.
  destruct (routes_before_load (boot_world ∅)) as (Hw & _ & (_ & _ & Ha & _) & _).
  - repeat split.
  - split; assumption.
Defined.

(** Witness of X13: the [Socials] section of the specification's example,
    after a section of settings. *)
Lemma plain_file_loads_witness :
  serve GET_api_socials (snd (load_ini (boot_world (ini_file (Ini.text plain_example)))))
  = ({| status := 200; payload := Jsonified (PyDict [("a", PyStr "b")]) |},
     snd (load_ini (boot_world (ini_file (Ini.text plain_example))))).
Proof.
  destruct (plain_file_loads (boot_world (ini_file (Ini.text plain_example)))
              {| content := Ini.text plain_example; mtime := 0 |} plain_example)
    as (_ & _ & _ & _ & H).
  - vm_compute. reflexivity.
  - vm_compute. reflexivity.
  - reflexivity.
  - exact H.
Defined.




(** Witness of X16: two records, one with a title outside ASCII. *)
Lemma youtube_round_trip_witness :
  serve GET_api_youtube (example_world (youtube_file two_videos) 0 api_down)
  = ({| status := 200;
        payload := Jsonified
                     (PyList [PyDict [("url", PyStr "http://x"); ("title", PyStr "Łódź")];
                              PyDict [("url", PyStr "http://y"); ("views", PyInt 12)]]) |},
     example_world (youtube_file two_videos) 0 api_down).
Proof.
  apply (youtube_round_trip _ {| content := Json.dumps two_videos; mtime := 0 |}
           [("http://x", PyDict [("title", PyStr "Łódź")]);
            ("http://y", PyDict [("views", PyInt 12)])]).
  - apply example_loaded.
  - vm_compute. reflexivity.
  - reflexivity.
  - vm_compute. reflexivity.
  - vm_compute. reflexivity.
Defined.
